(** * ZFS ARC statistics collector (collector/zfs_solaris.go)

    A shallow embedding of the Solaris ZFS collector of node_exporter:
    the descriptor table built by [NewZfsCollector], the collection cycle
    [updateZfsArcStats] and its wrapper [Update], together with the parts
    of the Go standard library, of the Prometheus client and of go-kstat
    that the cycle calls. *)

From Stdlib Require Import ZArith Ascii Lia.
From Stdlib Require Import Floats.SpecFloat.
From stdpp Require Import gmap strings list fin_maps.

Local Open Scope Z_scope.

(** ** Go errors

    An [error] is known to this code only through its [Error()] message;
    [errors.New] builds one from a message. *)

Record error : Type := errors_New { Error : string }.

#[global] Instance error_eq_dec : EqDecision error.
Proof. solve_decision. Defined.

(** A Go call returning [(value, err)]. *)
Inductive result (A : Type) : Type :=
| Ok (a : A)
| Err (e : error).
Arguments Ok {A} a.
Arguments Err {A} e.

(** ** Package [strings] *)

Module strings.

(** [s[i:]] for [i <= len(s)]. *)
Fixpoint drop (i : nat) (s : string) : string :=
  match i, s with
  | O, _ => s
  | S i', String _ s' => drop i' s'
  | S _, EmptyString => EmptyString
  end.

(** [func HasSuffix(s, suffix string) bool {
      return len(s) >= len(suffix) && s[len(s)-len(suffix):] == suffix }] *)
Definition HasSuffix (s suffix : string) : bool :=
  (String.length suffix <=? String.length s)%nat
  && String.eqb (drop (String.length s - String.length suffix) s) suffix.

(** [strings.Join(elems, sep)]. *)
Fixpoint Join (elems : list string) (sep : string) : string :=
  match elems with
  | [] => ""
  | [e] => e
  | e :: rest => e +:+ sep +:+ Join rest sep
  end.

End strings.

(** What the specification calls "[s] ends in [suffix]". *)
Definition ends_in (s suffix : string) : Prop :=
  exists prefix : string, s = prefix +:+ suffix.

(** ** Prometheus client: metric names and descriptors *)

Module prometheus.

Inductive ValueType : Type := CounterValue | GaugeValue | UntypedValue.

#[global] Instance ValueType_eq_dec : EqDecision ValueType.
Proof. solve_decision. Defined.

(** [BuildFQName] joins the non-empty components with an underscore; an
    empty [name] gives the empty string. *)
Definition BuildFQName (namespace subsystem name : string) : string :=
  if String.eqb name "" then ""
  else if negb (String.eqb namespace "") && negb (String.eqb subsystem "")
    then strings.Join [namespace; subsystem; name] "_"
  else if negb (String.eqb namespace "")
    then strings.Join [namespace; name] "_"
  else if negb (String.eqb subsystem "")
    then strings.Join [subsystem; name] "_"
  else name.

(** One byte of a metric name: a letter, [_] or [:] anywhere, a digit
    anywhere but first. *)
Definition validMetricByte (i : nat) (b : ascii) : bool :=
  let n := nat_of_ascii b in
  ((97 <=? n) && (n <=? 122) || (65 <=? n) && (n <=? 90)
   || (n =? 95) || (n =? 58)
   || (48 <=? n) && (n <=? 57) && (0 <? i))%nat.

Fixpoint validFrom (i : nat) (n : string) : bool :=
  match n with
  | EmptyString => true
  | String b n' => validMetricByte i b && validFrom (S i) n'
  end.

(** [model.IsValidMetricName]: non-empty and matching
    [[a-zA-Z_:][a-zA-Z0-9_:]*].  The Go loop ranges over runes; a byte
    outside ASCII never decodes to an accepted rune, so the test is the
    same byte by byte. *)
Definition IsValidMetricName (n : string) : bool :=
  negb (String.length n =? 0)%nat && validFrom 0 n.

(** [Desc]: the descriptor of a metric.  [err] records a construction
    error, reported when the descriptor is used.  This collector builds
    every descriptor with neither variable nor constant labels, so the
    label fields are left out. *)
Record Desc : Type := mkDesc {
  fqName : string;
  help : string;
  err : option error
}.

#[global] Instance Desc_eq_dec : EqDecision Desc.
Proof. solve_decision. Defined.

Definition quote : string := String (ascii_of_nat 34) EmptyString.

Section Quoting.

(** [strconv.Quote], which [fmt] applies to the argument of the verb
    [%q].  It is left open: the descriptors are modelled for every such
    function, so nothing below depends on how a name is escaped. *)
Variable Quote : string -> string.

(** [NewDesc(fqName, help, nil, nil)]: never fails; an invalid name is
    recorded in the descriptor, as
    [fmt.Errorf("%q is not a valid metric name", fqName)]. *)
Definition NewDesc (fqName help : string) : Desc :=
  if IsValidMetricName fqName
  then mkDesc fqName help None
  else mkDesc fqName help
         (Some (errors_New (Quote fqName +:+ " is not a valid metric name"))).

End Quoting.

(** A constant metric: what is sent on the channel. *)
Record Metric : Type := mkMetric {
  desc : Desc;
  valType : ValueType;
  val : spec_float
}.

(** [NewConstMetric(desc, valueType, value)] with no label values: it
    fails exactly when the descriptor carries an error. *)
Definition NewConstMetric (d : Desc) (t : ValueType) (v : spec_float)
  : result Metric :=
  match err d with
  | Some e => Err e
  | None => Ok (mkMetric d t v)
  end.

End prometheus.

Import prometheus.

(** ** go-kstat: the kernel statistics facility

    The facility is the environment of a cycle: whether [kstat.Open]
    succeeds, what [Lookup] resolves and what each named field holds. *)

Module kstat.

(** A named statistic; [UintVal] is a [uint64]. *)
Record Named : Type := mkNamed {
  Name : string;
  IntVal : Z;
  UintVal : Z
}.

Record KStat : Type := mkKStat {
  GetNamed : string -> result Named
}.

Record Token : Type := mkToken {
  Lookup : string -> Z -> string -> result KStat
}.

Record Facility : Type := mkFacility {
  Open : result Token
}.

End kstat.

Import kstat.

Definition uint64 (z : Z) : Prop := 0 <= z < 2 ^ 64.

(** [float64(u)] for a [uint64]: IEEE 754 binary64, rounded to nearest,
    ties to even. *)
Definition float64 (u : Z) : spec_float :=
  binary_normalize 53 1024 u 0 false.

(** The integer a binary64 value stands for, when it is one. *)
Definition SF2Z (f : spec_float) : option Z :=
  match f with
  | S754_zero _ => Some 0
  | S754_finite s m e =>
      if 0 <=? e then Some (cond_Zopp s (Z.pos m * 2 ^ e))
      else if Z.pos m mod 2 ^ (- e) =? 0
        then Some (cond_Zopp s (Z.pos m / 2 ^ (- e)))
        else None
  | _ => None
  end.

(** ** Observable effects of a cycle

    The world a cycle acts on is the sequence of effects so far: handles
    of the facility opened and closed, groups looked up, fields fetched,
    metrics sent on the channel. *)

Inductive Event : Type :=
| EvOpen
| EvClose
| EvLookup (module : string) (instance : Z) (name : string)
| EvGetNamed (k : string)
| EvSend (m : Metric).

Abbreviation World := (list Event).

(** The metrics delivered to the channel, in order. *)
Fixpoint sent (w : World) : list Metric :=
  match w with
  | [] => []
  | EvSend m :: w' => m :: sent w'
  | _ :: w' => sent w'
  end.

(** The field names fetched, in order. *)
Fixpoint fetched (w : World) : list string :=
  match w with
  | [] => []
  | EvGetNamed k :: w' => k :: fetched w'
  | _ :: w' => fetched w'
  end.

(** Handles opened minus handles closed. *)
Fixpoint open_handles (w : World) : Z :=
  match w with
  | [] => 0
  | EvOpen :: w' => 1 + open_handles w'
  | EvClose :: w' => open_handles w' - 1
  | _ :: w' => open_handles w'
  end.

(** How a call ends: it returns (a nil or non-nil error) or it panics. *)
Inductive outcome : Type :=
| Return (e : option error)
| Panic (e : error).

(** ** The collector *)

Record Logger : Type := mkLogger {
  Log : list string -> option error
}.

Record zfsCollector : Type := mkZfsCollector {
  arcstatsC : Desc;
  arcstatsCMax : Desc;
  arcstatsCMin : Desc;
  arcstatsDataSize : Desc;
  arcstatsDemandDataHits : Desc;
  arcstatsDemandDataMisses : Desc;
  arcstatsDemandMetadataHits : Desc;
  arcstatsDemandMetadataMisses : Desc;
  arcstatsHits : Desc;
  arcstatsMisses : Desc;
  arcstatsMFUGhostHits : Desc;
  arcstatsMRUGhostHits : Desc;
  arcstatsOtherSize : Desc;
  arcstatsP : Desc;
  arcstatsSize : Desc;
  logger : Logger
}.

Definition zfsCollectorSubsystem : string := "zfs".

Section Package.

(** The package constant [namespace] is declared in another file of the
    package; the collector is modelled for any value of it. *)
Variable namespace : string.

(** The quoting function of the library, see [NewDesc]. *)
Variable Quote : string -> string.

Definition NewZfsCollector (logger : Logger) : zfsCollector * option error :=
  ({| arcstatsC := NewDesc Quote
        (BuildFQName namespace zfsCollectorSubsystem "arcstats_c_bytes")
        "ZFS ARC target size";
      arcstatsCMax := NewDesc Quote
        (BuildFQName namespace zfsCollectorSubsystem "arcstats_c_max_bytes")
        "ZFS ARC maximum size";
      arcstatsCMin := NewDesc Quote
        (BuildFQName namespace zfsCollectorSubsystem "arcstats_c_min_bytes")
        "ZFS ARC minimum size";
      arcstatsDataSize := NewDesc Quote
        (BuildFQName namespace zfsCollectorSubsystem "arcstats_data_bytes")
        "ZFS ARC data size";
      arcstatsDemandDataHits := NewDesc Quote
        (BuildFQName namespace zfsCollectorSubsystem
           "arcstats_demand_data_hits_total")
        "ZFS ARC demand data hits";
      arcstatsDemandDataMisses := NewDesc Quote
        (BuildFQName namespace zfsCollectorSubsystem
           "arcstats_demand_data_misses_total")
        "ZFS ARC demand data misses";
      arcstatsDemandMetadataHits := NewDesc Quote
        (BuildFQName namespace zfsCollectorSubsystem
           "arcstats_demand_metadata_hits_total")
        "ZFS ARC demand metadata hits";
      arcstatsDemandMetadataMisses := NewDesc Quote
        (BuildFQName namespace zfsCollectorSubsystem
           "arcstats_demand_metadata_misses_total")
        "ZFS ARC demand metadata misses";
      arcstatsHits := NewDesc Quote
        (BuildFQName namespace zfsCollectorSubsystem "arcstats_hits_total")
        "ZFS ARC hits";
      arcstatsMisses := NewDesc Quote
        (BuildFQName namespace zfsCollectorSubsystem "arcstats_misses_total")
        "ZFS ARC misses";
      arcstatsMFUGhostHits := NewDesc Quote
        (BuildFQName namespace zfsCollectorSubsystem
           "arcstats_mfu_ghost_hits_total")
        "ZFS ARC MFU ghost hits";
      arcstatsMRUGhostHits := NewDesc Quote
        (BuildFQName namespace zfsCollectorSubsystem
           "arcstats_mru_ghost_hits_total")
        "ZFS ARC MRU ghost hits";
      arcstatsOtherSize := NewDesc Quote
        (BuildFQName namespace zfsCollectorSubsystem "arcstats_other_bytes")
        "ZFS ARC other size";
      arcstatsP := NewDesc Quote
        (BuildFQName namespace zfsCollectorSubsystem "arcstats_p_bytes")
        "ZFS ARC MRU target size";
      arcstatsSize := NewDesc Quote
        (BuildFQName namespace zfsCollectorSubsystem "arcstats_size_bytes")
        "ZFS ARC size";
      logger := logger |},
   None).

End Package.

(** The entries of the map literal ranged over by the cycle, as written. *)
Definition arcstatsEntries (c : zfsCollector) : list (string * Desc) :=
  [ ("c", arcstatsC c);
    ("c_max", arcstatsCMax c);
    ("c_min", arcstatsCMin c);
    ("data_size", arcstatsDataSize c);
    ("demand_data_hits", arcstatsDemandDataHits c);
    ("demand_data_misses", arcstatsDemandDataMisses c);
    ("demand_metadata_hits", arcstatsDemandMetadataHits c);
    ("demand_metadata_misses", arcstatsDemandMetadataMisses c);
    ("hits", arcstatsHits c);
    ("misses", arcstatsMisses c);
    ("mfu_ghost_hits", arcstatsMFUGhostHits c);
    ("mru_ghost_hits", arcstatsMRUGhostHits c);
    ("other_size", arcstatsOtherSize c);
    ("p", arcstatsP c);
    ("size", arcstatsSize c) ].

(** The [map[string]*prometheus.Desc] value of that literal. *)
Definition arcstatsMap (c : zfsCollector) : gmap string Desc :=
  list_to_map (arcstatsEntries c).

(** A [range] over a Go map visits every entry once, in an order the
    runtime chooses: [order] is such an order. *)
Definition rangeOrder (c : zfsCollector) (order : list (string * Desc)) : Prop :=
  order ≡ₚ map_to_list (arcstatsMap c).

(** The kind chosen at lines 158-162. *)
Definition metricTypeOf (k : string) : ValueType :=
  if strings.HasSuffix k "_hits" || strings.HasSuffix k "_misses"
  then CounterValue
  else GaugeValue.

(** The body of the [for k, v := range ...] loop, over the entries still
    to visit.  [MustNewConstMetric] panics where [NewConstMetric] fails. *)
Fixpoint rangeArcstats (ksZFSInfo : KStat) (order : list (string * Desc))
    (w : World) : World * outcome :=
  match order with
  | [] => (w, Return None)
  | (k, v) :: rest =>
      match GetNamed ksZFSInfo k with
      | Err e =>
          (w ++ [EvGetNamed k],
           Return (Some (errors_New
             ("ksZFSInfo.GetNamed(" +:+ k +:+ "): " +:+ Error e))))
      | Ok ksZFSInfoValue =>
          let metricType := metricTypeOf k in
          match NewConstMetric v metricType
                  (float64 (UintVal ksZFSInfoValue)) with
          | Err e => (w ++ [EvGetNamed k], Panic e)
          | Ok m => rangeArcstats ksZFSInfo rest (w ++ [EvGetNamed k; EvSend m])
          end
      end
  end.

(** [updateZfsArcStats].  The map literal is [arcstatsMap c]; [order] is
    the order in which the runtime ranges over it, a choice the function
    has no hand in, so it is given from outside and constrained by
    [rangeOrder c order].  The deferred [tok.Close()] runs on every way
    out of the function once the handle is held. *)
Definition updateZfsArcStats (c : zfsCollector) (order : list (string * Desc))
    (K : Facility) (w : World) : World * outcome :=
  match Open K with
  | Err e => (w, Return (Some e))
  | Ok tok =>
      let w1 := w ++ [EvOpen] in
      let '(w2, out) :=
        match Lookup tok "zfs" 0 "arcstats" with
        | Err e => (w1 ++ [EvLookup "zfs" 0 "arcstats"], Return (Some e))
        | Ok ksZFSInfo =>
            rangeArcstats ksZFSInfo order
              (w1 ++ [EvLookup "zfs" 0 "arcstats"])
        end in
      (w2 ++ [EvClose], out)
  end.

Definition Update (c : zfsCollector) (order : list (string * Desc))
    (K : Facility) (w : World) : World * outcome :=
  match updateZfsArcStats c order K w with
  | (w', Return (Some e)) =>
      (w', Return (Some (errors_New ("updateZfsArcStats: " +:+ Error e))))
  | (w', Return None) => (w', Return None)
  | (w', Panic e) => (w', Panic e)
  end.

(** ** What a cycle emits, entry by entry *)

(** The group a cycle reads, when the facility opens and resolves it. *)
Definition groupOf (K : Facility) : option KStat :=
  match Open K with
  | Ok tok =>
      match Lookup tok "zfs" 0 "arcstats" with
      | Ok ksZFSInfo => Some ksZFSInfo
      | Err _ => None
      end
  | Err _ => None
  end.

(** The metric one iteration of the loop sends for the entry [kv], when
    the fetch and the construction of the metric both succeed. *)
Definition fieldSample (ksZFSInfo : KStat) (kv : string * Desc) : option Metric :=
  match GetNamed ksZFSInfo kv.1 with
  | Ok ksZFSInfoValue =>
      match NewConstMetric kv.2 (metricTypeOf kv.1)
              (float64 (UintVal ksZFSInfoValue)) with
      | Ok m => Some m
      | Err _ => None
      end
  | Err _ => None
  end.

(** The effects of the iterations over [order] that sent [ms]. *)
Fixpoint loopEvents (order : list (string * Desc)) (ms : list Metric) : World :=
  match order, ms with
  | (k, _) :: order', m :: ms' => EvGetNamed k :: EvSend m :: loopEvents order' ms'
  | _, _ => []
  end.

(** How the loop stops on the entries left: none is left, a fetch fails,
    or the construction of the metric panics. *)
Inductive loopEnd (ksZFSInfo : KStat) :
    list (string * Desc) -> World -> outcome -> Prop :=
| loopEnd_done :
    loopEnd ksZFSInfo [] [] (Return None)
| loopEnd_fetch k v post e :
    GetNamed ksZFSInfo k = Err e ->
    loopEnd ksZFSInfo ((k, v) :: post) [EvGetNamed k]
      (Return (Some (errors_New
         ("ksZFSInfo.GetNamed(" +:+ k +:+ "): " +:+ Error e))))
| loopEnd_panic k v post n e :
    GetNamed ksZFSInfo k = Ok n ->
    err v = Some e ->
    loopEnd ksZFSInfo ((k, v) :: post) [EvGetNamed k] (Panic e).

(** The descriptor table: the fifteen descriptors a collector holds. *)
Definition descriptors (c : zfsCollector) : list Desc :=
  [ arcstatsC c; arcstatsCMax c; arcstatsCMin c; arcstatsDataSize c;
    arcstatsDemandDataHits c; arcstatsDemandDataMisses c;
    arcstatsDemandMetadataHits c; arcstatsDemandMetadataMisses c;
    arcstatsHits c; arcstatsMisses c; arcstatsMFUGhostHits c;
    arcstatsMRUGhostHits c; arcstatsOtherSize c; arcstatsP c;
    arcstatsSize c ].

(** The last component of each fully-qualified name, as written in
    [NewZfsCollector]. *)
Definition metricNames : list string :=
  [ "arcstats_c_bytes"; "arcstats_c_max_bytes"; "arcstats_c_min_bytes";
    "arcstats_data_bytes"; "arcstats_demand_data_hits_total";
    "arcstats_demand_data_misses_total";
    "arcstats_demand_metadata_hits_total";
    "arcstats_demand_metadata_misses_total"; "arcstats_hits_total";
    "arcstats_misses_total"; "arcstats_mfu_ghost_hits_total";
    "arcstats_mru_ghost_hits_total"; "arcstats_other_bytes";
    "arcstats_p_bytes"; "arcstats_size_bytes" ].

(** The field names queried, as written in the map literal. *)
Definition fieldNames : list string :=
  [ "c"; "c_max"; "c_min"; "data_size"; "demand_data_hits";
    "demand_data_misses"; "demand_metadata_hits"; "demand_metadata_misses";
    "hits"; "misses"; "mfu_ghost_hits"; "mru_ghost_hits"; "other_size";
    "p"; "size" ].

(** The (name, kind, value) tuple of an emitted metric. *)
Definition tupleOf (m : Metric) : string * ValueType * spec_float :=
  (fqName (desc m), valType m, val m).

(** A namespace under which every name built by [NewZfsCollector] is a
    valid metric name. *)
Definition validNamespace (namespace : string) : Prop :=
  namespace = "" \/ IsValidMetricName namespace = true.

(** An integer that binary64 holds exactly: at most 53 significant bits. *)
Definition binary64_int (u : Z) : Prop :=
  exists m e : Z, 0 <= m < 2 ^ 53 /\ 0 <= e /\ u = m * 2 ^ e.

(** The metric a cycle against [K] sends for the entry [kv]. *)
Definition cycleSample (K : Facility) (kv : string * Desc) : option Metric :=
  match groupOf K with
  | Some ksZFSInfo => fieldSample ksZFSInfo kv
  | None => None
  end.

(** What [BuildFQName namespace "zfs"] puts before a non-empty name. *)
Definition fqPrefix (namespace : string) : string :=
  if String.eqb namespace "" then "zfs_" else namespace +:+ "_zfs_".

(** ** A mock facility

    A facility that opens, resolves every group to the given fields and
    fails to fetch any other field. *)

Definition mockGroup (fields : list (string * Z)) : KStat :=
  mkKStat (fun k =>
    match (list_to_map fields : gmap string Z) !! k with
    | Some u => Ok (mkNamed k 0 u)
    | None => Err (errors_New "invalid argument")
    end).

Definition mockFacility (fields : list (string * Z)) : Facility :=
  mkFacility (Ok (mkToken (fun _ _ _ => Ok (mockGroup fields)))).

Definition mockFields : list (string * Z) :=
  [ ("c", 1000); ("c_max", 2000); ("c_min", 100); ("data_size", 700);
    ("demand_data_hits", 30); ("demand_data_misses", 3);
    ("demand_metadata_hits", 20); ("demand_metadata_misses", 2);
    ("hits", 50); ("misses", 5); ("mfu_ghost_hits", 7);
    ("mru_ghost_hits", 8); ("other_size", 200); ("p", 500);
    ("size", 900) ].

(** The mock fields without [p]. *)
Definition mockFieldsNoP : list (string * Z) :=
  filter (fun f => f.1 <> "p") mockFields.

(** A facility that cannot be opened. *)
Definition closedFacility : Facility :=
  mkFacility (Err (errors_New "permission denied")).

(** A facility that opens but does not know the group. *)
Definition emptyFacility : Facility :=
  mkFacility (Ok (mkToken (fun _ _ _ => Err (errors_New "no such kstat")))).

(** [strconv.Quote] on a string of printable ASCII bytes with neither a
    quote nor a backslash: the string between two quotes.  The names of
    the examples below are all of this kind. *)
Definition plainQuote (s : string) : string := quote +:+ s +:+ quote.

Definition nopLogger : Logger := mkLogger (fun _ => None).

(** The collector of the usual [node] namespace. *)
Definition nodeCollector : zfsCollector := (NewZfsCollector "node" plainQuote nopLogger).1.

(** A collector built under a namespace that is no valid prefix of a
    metric name. *)
Definition dashCollector : zfsCollector :=
  (NewZfsCollector "node-exporter" plainQuote nopLogger).1.

(** Whether the byte [b] occurs in [s]. *)
Fixpoint mentions (b : ascii) (s : string) : bool :=
  match s with
  | EmptyString => false
  | String x s' => Ascii.eqb b x || mentions b s'
  end.

(** * Properties *)

(** ** Strings *)

Lemma append_cons (x : ascii) (a b : string) :
  String x a +:+ b = String x (a +:+ b).
Proof. reflexivity. Qed.

Lemma append_nil_l (b : string) : EmptyString +:+ b = b.
Proof. reflexivity. Qed.

Lemma string_length_app (a b : string) :
  String.length (a +:+ b) = (String.length a + String.length b)%nat.
Proof.
  induction a as [|x a IH]; [reflexivity|].
  rewrite append_cons. cbn [String.length Nat.add]. now rewrite IH.
Qed.

Lemma string_app_assoc (a b c : string) :
  (a +:+ b) +:+ c = a +:+ (b +:+ c).
Proof.
  induction a as [|x a IH]; [reflexivity|].
  rewrite !append_cons. now rewrite IH.
Qed.

Lemma drop_app (p s : string) : strings.drop (String.length p) (p +:+ s) = s.
Proof.
  induction p as [|x p IH]; [reflexivity|].
  rewrite append_cons. cbn [String.length strings.drop]. exact IH.
Qed.

Lemma drop_split (i : nat) (s : string) :
  (i <= String.length s)%nat -> exists p, s = p +:+ strings.drop i s.
Proof.
  revert s. induction i as [|i IH]; intros s Hi.
  - exists EmptyString. reflexivity.
  - destruct s as [|x s]; cbn [String.length] in Hi; [lia|].
    destruct (IH s) as [p Hp]; [lia|].
    exists (String x p). rewrite append_cons. cbn [strings.drop].
    now rewrite <- Hp.
Qed.

(** [strings.HasSuffix] decides "ends in". *)
Lemma HasSuffix_ends_in (s suffix : string) :
  strings.HasSuffix s suffix = true <-> ends_in s suffix.
Proof.
  unfold strings.HasSuffix, ends_in. split.
  - intros H. apply andb_true_iff in H as [Hlen Heq].
    apply Nat.leb_le in Hlen. apply String.eqb_eq in Heq.
    destruct (drop_split (String.length s - String.length suffix) s) as [p Hp];
      [lia|].
    exists p. now rewrite <- Heq.
  - intros [p ->]. rewrite string_length_app. apply andb_true_iff. split.
    + apply Nat.leb_le. lia.
    + replace (String.length p + String.length suffix - String.length suffix)%nat
        with (String.length p) by lia.
      rewrite drop_app. apply String.eqb_refl.
Qed.

Lemma metricTypeOf_Counter (k : string) :
  metricTypeOf k = CounterValue <-> ends_in k "_hits" \/ ends_in k "_misses".
Proof.
  unfold metricTypeOf. rewrite <- !HasSuffix_ends_in.
  destruct (strings.HasSuffix k "_hits"), (strings.HasSuffix k "_misses");
    simpl; split; intros H; try discriminate; auto;
    destruct H; discriminate.
Qed.

Lemma metricTypeOf_Gauge (k : string) :
  metricTypeOf k = GaugeValue <->
  ~ (ends_in k "_hits" \/ ends_in k "_misses").
Proof.
  rewrite <- metricTypeOf_Counter. unfold metricTypeOf.
  destruct (_ || _); split; intros H; try discriminate; auto.
  exfalso. now apply H.
Qed.

(** ** Effects: projections of a world *)

Lemma sent_app (w1 w2 : World) : sent (w1 ++ w2) = sent w1 ++ sent w2.
Proof.
  induction w1 as [|ev w1 IH]; [reflexivity|].
  destruct ev; simpl; now rewrite IH.
Qed.

Lemma fetched_app (w1 w2 : World) :
  fetched (w1 ++ w2) = fetched w1 ++ fetched w2.
Proof.
  induction w1 as [|ev w1 IH]; [reflexivity|].
  destruct ev; simpl; now rewrite IH.
Qed.

Lemma open_handles_app (w1 w2 : World) :
  open_handles (w1 ++ w2) = open_handles w1 + open_handles w2.
Proof.
  induction w1 as [|ev w1 IH]; [reflexivity|].
  destruct ev; simpl; rewrite IH; lia.
Qed.

Lemma sent_loopEvents (order : list (string * Desc)) (ms : list Metric) :
  length order = length ms -> sent (loopEvents order ms) = ms.
Proof.
  revert ms. induction order as [|[k v] order IH]; intros [|m ms] Hlen;
    simpl in *; try discriminate; [reflexivity|].
  f_equal. apply IH. lia.
Qed.

Lemma fetched_loopEvents (order : list (string * Desc)) (ms : list Metric) :
  length order = length ms -> fetched (loopEvents order ms) = order.*1.
Proof.
  revert ms. induction order as [|[k v] order IH]; intros [|m ms] Hlen;
    simpl in *; try discriminate; [reflexivity|].
  f_equal. apply IH. lia.
Qed.

Lemma open_handles_loopEvents (order : list (string * Desc)) (ms : list Metric) :
  open_handles (loopEvents order ms) = 0.
Proof.
  revert ms. induction order as [|[k v] order IH]; intros [|m ms];
    simpl; auto.
Qed.

Lemma loopEvents_handles (order : list (string * Desc)) (ms : list Metric) :
  (EvOpen ∉ loopEvents order ms) /\ (EvClose ∉ loopEvents order ms).
Proof.
  revert ms. induction order as [|[k v] order IH]; intros [|m ms]; simpl;
    try (split; apply not_elem_of_nil).
  destruct (IH ms) as [Ho Hc].
  split; intros H; repeat (apply elem_of_cons in H as [H|H]; [discriminate|]);
    tauto.
Qed.

(** ** The loop *)

Lemma fieldSample_inv (ks : KStat) (kv : string * Desc) (m : Metric) :
  fieldSample ks kv = Some m ->
  exists n, GetNamed ks kv.1 = Ok n /\ err kv.2 = None /\
            m = mkMetric kv.2 (metricTypeOf kv.1) (float64 (UintVal n)).
Proof.
  unfold fieldSample, NewConstMetric. intros H.
  destruct (GetNamed ks kv.1) as [n|e]; [|discriminate].
  destruct (err kv.2); [discriminate|].
  exists n. repeat split. congruence.
Qed.

(** The loop invariant: after the iterations over [pre], which sent [ms],
    the loop goes on with the entries left in the world extended by the
    effects of these iterations. *)
Lemma rangeArcstats_app (ks : KStat) (pre rest : list (string * Desc))
    (ms : list Metric) (w : World) :
  Forall2 (fun kv m => fieldSample ks kv = Some m) pre ms ->
  rangeArcstats ks (pre ++ rest) w =
  rangeArcstats ks rest (w ++ loopEvents pre ms).
Proof.
  intros H. revert w. induction H as [|[k v] m pre ms Hkv _ IH]; intros w.
  - simpl. now rewrite app_nil_r.
  - unfold fieldSample in Hkv. simpl in Hkv |- *.
    destruct (GetNamed ks k) as [n|e]; [|discriminate].
    destruct (NewConstMetric v (metricTypeOf k) (float64 (UintVal n)))
      as [m'|e]; [|discriminate].
    injection Hkv as ->. rewrite IH, <- app_assoc. reflexivity.
Qed.

(** Where the loop stops. *)
Lemma loopEnd_run (ks : KStat) (post : list (string * Desc)) (tail : World)
    (out : outcome) (w : World) :
  loopEnd ks post tail out -> rangeArcstats ks post w = (w ++ tail, out).
Proof.
  intros [ | k v post' e Hk | k v post' n e Hk Hv ]; simpl.
  - now rewrite app_nil_r.
  - now rewrite Hk.
  - rewrite Hk. unfold NewConstMetric. now rewrite Hv.
Qed.

(** Every run of the loop is some iterations that send a metric each,
    followed by one of the three ways to stop. *)
Lemma rangeArcstats_split (ks : KStat) (order : list (string * Desc)) :
  exists pre post ms tail out,
    order = pre ++ post /\
    Forall2 (fun kv m => fieldSample ks kv = Some m) pre ms /\
    loopEnd ks post tail out.
Proof.
  induction order as [|[k v] order IH].
  - exists [], [], [], [], (Return None). repeat split; constructor.
  - destruct (GetNamed ks k) as [n|e] eqn:Hk.
    + destruct (err v) as [e|] eqn:Hv.
      * exists [], ((k, v) :: order), [], [EvGetNamed k], (Panic e).
        repeat split; [constructor | econstructor; eauto].
      * destruct IH as (pre & post & ms & tail & out & -> & Hpre & Hend).
        exists ((k, v) :: pre), post,
               (mkMetric v (metricTypeOf k) (float64 (UintVal n)) :: ms),
               tail, out.
        repeat split; [|exact Hend].
        constructor; [|exact Hpre].
        unfold fieldSample, NewConstMetric. simpl. now rewrite Hk, Hv.
    + exists [], ((k, v) :: order), [], [EvGetNamed k],
        (Return (Some (errors_New
           ("ksZFSInfo.GetNamed(" +:+ k +:+ "): " +:+ Error e)))).
      repeat split; [constructor | now constructor].
Qed.

Lemma rangeArcstats_run (ks : KStat) (order : list (string * Desc)) (w : World) :
  exists pre post ms tail,
    order = pre ++ post /\
    Forall2 (fun kv m => fieldSample ks kv = Some m) pre ms /\
    loopEnd ks post tail (rangeArcstats ks order w).2 /\
    (rangeArcstats ks order w).1 = w ++ loopEvents pre ms ++ tail.
Proof.
  destruct (rangeArcstats_split ks order)
    as (pre & post & ms & tail & out & -> & Hpre & Hend).
  exists pre, post, ms, tail.
  rewrite (rangeArcstats_app _ _ _ _ _ Hpre), (loopEnd_run _ _ _ _ _ Hend).
  simpl. rewrite <- app_assoc. auto.
Qed.

Lemma loopEnd_nil_iff (ks : KStat) (post : list (string * Desc)) (tail : World) :
  loopEnd ks post tail (Return None) -> post = [] /\ tail = [].
Proof. inversion 1; auto. Qed.

Lemma loopEnd_tail (ks : KStat) (post : list (string * Desc)) (tail : World)
    (out : outcome) :
  loopEnd ks post tail out ->
  sent tail = [] /\ open_handles tail = 0 /\
  (EvOpen ∉ tail) /\ (EvClose ∉ tail).
Proof.
  intros []; simpl; repeat split; try apply not_elem_of_nil;
    intros Hin; apply list_elem_of_singleton in Hin; discriminate.
Qed.

(** ** The cycle *)

Lemma updateZfsArcStats_open_fails (c : zfsCollector)
    (order : list (string * Desc)) (K : Facility) (w : World) (e : error) :
  Open K = Err e -> updateZfsArcStats c order K w = (w, Return (Some e)).
Proof. unfold updateZfsArcStats. now intros ->. Qed.

Lemma updateZfsArcStats_lookup_fails (c : zfsCollector)
    (order : list (string * Desc)) (K : Facility) (w : World)
    (tok : Token) (e : error) :
  Open K = Ok tok ->
  Lookup tok "zfs" 0 "arcstats" = Err e ->
  updateZfsArcStats c order K w =
  (w ++ [EvOpen; EvLookup "zfs" 0 "arcstats"; EvClose], Return (Some e)).
Proof.
  unfold updateZfsArcStats. intros -> ->. now rewrite <- !app_assoc.
Qed.

Lemma updateZfsArcStats_loop (c : zfsCollector)
    (order : list (string * Desc)) (K : Facility) (w : World)
    (tok : Token) (ks : KStat) :
  Open K = Ok tok ->
  Lookup tok "zfs" 0 "arcstats" = Ok ks ->
  updateZfsArcStats c order K w =
  ((rangeArcstats ks order (w ++ [EvOpen; EvLookup "zfs" 0 "arcstats"])).1
     ++ [EvClose],
   (rangeArcstats ks order (w ++ [EvOpen; EvLookup "zfs" 0 "arcstats"])).2).
Proof.
  unfold updateZfsArcStats. intros -> ->. rewrite <- app_assoc. simpl.
  now destruct (rangeArcstats ks order _).
Qed.

(** A cycle that reaches the loop: its effects are an open, a lookup, the
    iterations that went through, the way the loop stopped and a close. *)
Lemma updateZfsArcStats_run (c : zfsCollector)
    (order : list (string * Desc)) (K : Facility) (w : World)
    (tok : Token) (ks : KStat) :
  Open K = Ok tok ->
  Lookup tok "zfs" 0 "arcstats" = Ok ks ->
  exists pre post ms tail,
    order = pre ++ post /\
    Forall2 (fun kv m => fieldSample ks kv = Some m) pre ms /\
    loopEnd ks post tail (updateZfsArcStats c order K w).2 /\
    (updateZfsArcStats c order K w).1 =
      w ++ [EvOpen; EvLookup "zfs" 0 "arcstats"]
        ++ loopEvents pre ms ++ tail ++ [EvClose].
Proof.
  intros Ho Hl. rewrite (updateZfsArcStats_loop _ _ _ _ _ _ Ho Hl). simpl.
  destruct (rangeArcstats_run ks order
              (w ++ [EvOpen; EvLookup "zfs" 0 "arcstats"]))
    as (pre & post & ms & tail & -> & Hpre & Hend & Hw).
  exists pre, post, ms, tail. repeat split; auto.
  rewrite Hw. now rewrite <- !app_assoc.
Qed.

(** The metrics a cycle adds to the channel, whatever its outcome: one
    for each entry of a prefix of the order, and for every entry when the
    cycle returns nil. *)
Lemma updateZfsArcStats_emitted (c : zfsCollector)
    (order : list (string * Desc)) (K : Facility) (w : World) :
  exists pre post ms,
    order = pre ++ post /\
    Forall2 (fun kv m => cycleSample K kv = Some m) pre ms /\
    sent (updateZfsArcStats c order K w).1 = sent w ++ ms /\
    ((updateZfsArcStats c order K w).2 = Return None ->
     post = [] /\
     fetched (updateZfsArcStats c order K w).1 = fetched w ++ order.*1).
Proof.
  destruct (Open K) as [tok|e] eqn:Ho.
  - destruct (Lookup tok "zfs" 0 "arcstats") as [ks|e] eqn:Hl.
    + destruct (updateZfsArcStats_run c order K w tok ks Ho Hl)
        as (pre & post & ms & tail & Hord & Hpre & Hend & Hw).
      exists pre, post, ms. split; [exact Hord|]. split; [|split].
      * eapply Forall2_impl; [exact Hpre|]. intros kv m Hkv.
        unfold cycleSample, groupOf. now rewrite Ho, Hl.
      * rewrite Hw, !sent_app.
        rewrite (sent_loopEvents _ _ (Forall2_length _ _ _ Hpre)).
        destruct (loopEnd_tail _ _ _ _ Hend) as (-> & _). simpl.
        now rewrite app_nil_r.
      * intros Hout. rewrite Hout in Hend.
        destruct (loopEnd_nil_iff _ _ _ Hend) as [-> ->].
        split; [reflexivity|].
        rewrite Hw, !fetched_app.
        rewrite (fetched_loopEvents _ _ (Forall2_length _ _ _ Hpre)).
        rewrite Hord, app_nil_r. simpl. now rewrite app_nil_r.
    + exists [], order, []. split; [reflexivity|]. split; [constructor|].
      rewrite (updateZfsArcStats_lookup_fails _ _ _ _ _ _ Ho Hl). simpl.
      split; [|discriminate].
      rewrite sent_app. simpl. reflexivity.
  - exists [], order, []. split; [reflexivity|]. split; [constructor|].
    rewrite (updateZfsArcStats_open_fails _ _ _ _ _ Ho). simpl.
    split; [now rewrite app_nil_r | discriminate].
Qed.

Lemma cycleSample_inv (K : Facility) (kv : string * Desc) (m : Metric) :
  cycleSample K kv = Some m ->
  exists tok ks n,
    Open K = Ok tok /\ Lookup tok "zfs" 0 "arcstats" = Ok ks /\
    GetNamed ks kv.1 = Ok n /\ err kv.2 = None /\
    m = mkMetric kv.2 (metricTypeOf kv.1) (float64 (UintVal n)).
Proof.
  unfold cycleSample, groupOf. intros H.
  destruct (Open K) as [tok|] eqn:Ho; [|discriminate].
  destruct (Lookup tok "zfs" 0 "arcstats") as [ks|] eqn:Hl; [|discriminate].
  destruct (fieldSample_inv _ _ _ H) as (n & Hn & Hv & ->).
  exists tok, ks, n. repeat split; auto.
Qed.

Lemma Forall2_cycleSample_desc (K : Facility) (order : list (string * Desc))
    (ms : list Metric) :
  Forall2 (fun kv m => cycleSample K kv = Some m) order ms ->
  desc <$> ms = order.*2.
Proof.
  induction 1 as [|kv m order ms Hkv _ IH]; [reflexivity|].
  destruct (cycleSample_inv _ _ _ Hkv) as (_ & _ & n & _ & _ & _ & _ & ->).
  rewrite !fmap_cons, IH. reflexivity.
Qed.

Lemma Forall2_cycleSample_omap (K : Facility) (order : list (string * Desc))
    (ms : list Metric) :
  Forall2 (fun kv m => cycleSample K kv = Some m) order ms ->
  ms = omap (cycleSample K) order.
Proof.
  induction 1 as [|kv m order ms Hkv _ IH]; [reflexivity|].
  cbn [omap list_omap]. rewrite Hkv. now rewrite <- IH.
Qed.

(** ** The descriptor table and the map literal *)

Lemma arcstatsEntries_keys (c : zfsCollector) :
  (arcstatsEntries c).*1 = fieldNames.
Proof. reflexivity. Qed.

Lemma arcstatsEntries_descs (c : zfsCollector) :
  (arcstatsEntries c).*2 = descriptors c.
Proof. reflexivity. Qed.

Lemma fieldNames_NoDup : NoDup fieldNames.
Proof. compute_done. Qed.

Lemma metricNames_NoDup : NoDup metricNames.
Proof. compute_done. Qed.

(** Any order of the range is a permutation of the entries as written. *)
Lemma rangeOrder_entries (c : zfsCollector) (order : list (string * Desc)) :
  rangeOrder c order -> order ≡ₚ arcstatsEntries c.
Proof.
  unfold rangeOrder, arcstatsMap. intros ->.
  apply map_to_list_to_map. rewrite arcstatsEntries_keys.
  exact fieldNames_NoDup.
Qed.

Lemma rangeOrder_length (c : zfsCollector) (order : list (string * Desc)) :
  rangeOrder c order -> length order = 15%nat.
Proof.
  intros H. apply rangeOrder_entries in H. now rewrite H.
Qed.

Lemma rangeOrder_keys (c : zfsCollector) (order : list (string * Desc)) :
  rangeOrder c order -> order.*1 ≡ₚ fieldNames.
Proof.
  intros H. apply rangeOrder_entries in H.
  now rewrite H, arcstatsEntries_keys.
Qed.

Lemma rangeOrder_descs (c : zfsCollector) (order : list (string * Desc)) :
  rangeOrder c order -> order.*2 ≡ₚ descriptors c.
Proof.
  intros H. apply rangeOrder_entries in H.
  now rewrite H, arcstatsEntries_descs.
Qed.

Lemma fqName_NewDesc (Quote : string -> string) (fq h : string) : fqName (NewDesc Quote fq h) = fq.
Proof. unfold NewDesc. now destruct (IsValidMetricName fq). Qed.

Lemma help_NewDesc (Quote : string -> string) (fq h : string) : help (NewDesc Quote fq h) = h.
Proof. unfold NewDesc. now destruct (IsValidMetricName fq). Qed.

Lemma err_NewDesc (Quote : string -> string) (fq h : string) :
  IsValidMetricName fq = true -> err (NewDesc Quote fq h) = None.
Proof. unfold NewDesc. now intros ->. Qed.

Lemma BuildFQName_zfs (namespace name : string) :
  name <> "" ->
  BuildFQName namespace zfsCollectorSubsystem name = fqPrefix namespace +:+ name.
Proof.
  intros Hname. unfold BuildFQName, fqPrefix, zfsCollectorSubsystem.
  apply String.eqb_neq in Hname. rewrite Hname.
  destruct (String.eqb namespace "") eqn:Hns.
  - reflexivity.
  - cbn [negb andb strings.Join]. rewrite string_app_assoc. reflexivity.
Qed.

Lemma metricNames_nonempty (name : string) :
  name ∈ metricNames -> name <> "".
Proof.
  intros Hin ->. revert Hin. compute_done.
Qed.

(** Reduce the field projections of a collector record. *)
Ltac collector_fields :=
  cbn [fst arcstatsC arcstatsCMax arcstatsCMin arcstatsDataSize
       arcstatsDemandDataHits arcstatsDemandDataMisses
       arcstatsDemandMetadataHits arcstatsDemandMetadataMisses arcstatsHits
       arcstatsMisses arcstatsMFUGhostHits arcstatsMRUGhostHits
       arcstatsOtherSize arcstatsP arcstatsSize logger].

(** The names a collector's descriptors carry. *)
Lemma NewZfsCollector_fqNames (namespace : string) (Quote : string -> string) (logger : Logger) :
  fqName <$> descriptors (NewZfsCollector namespace Quote logger).1 =
  (fun name => fqPrefix namespace +:+ name) <$> metricNames.
Proof.
  unfold descriptors, NewZfsCollector, metricNames. collector_fields.
  rewrite !fmap_cons, !fmap_nil, !fqName_NewDesc.
  rewrite !BuildFQName_zfs by discriminate. reflexivity.
Qed.

Lemma NewZfsCollector_fqNames_NoDup (namespace : string) (Quote : string -> string) (logger : Logger) :
  NoDup (fqName <$> descriptors (NewZfsCollector namespace Quote logger).1).
Proof.
  rewrite NewZfsCollector_fqNames.
  apply NoDup_fmap_2; [|exact metricNames_NoDup].
  intros a b Hab. exact (String.app_inj _ _ _ Hab).
Qed.

Lemma NewZfsCollector_descs_NoDup (namespace : string) (Quote : string -> string) (logger : Logger) :
  NoDup (descriptors (NewZfsCollector namespace Quote logger).1).
Proof.
  eapply NoDup_fmap_1. apply NewZfsCollector_fqNames_NoDup.
Qed.

(** *** Validity of the names *)

Lemma validMetricByte_S (i : nat) (b : ascii) :
  validMetricByte (S i) b = validMetricByte 1 b.
Proof. reflexivity. Qed.

Lemma validFrom_S (i : nat) (n : string) : validFrom (S i) n = validFrom 1 n.
Proof.
  revert i. induction n as [|b n IH]; intros i; [reflexivity|].
  cbn [validFrom]. rewrite (IH (S i)), (IH 1%nat). now rewrite validMetricByte_S.
Qed.

Lemma validFrom_app (i : nat) (a b : string) :
  validFrom (S i) a = true -> validFrom 1 b = true ->
  validFrom (S i) (a +:+ b) = true.
Proof.
  revert i. induction a as [|x a IH]; intros i Ha Hb.
  - rewrite append_nil_l. now rewrite validFrom_S.
  - rewrite append_cons. cbn [validFrom] in *.
    apply andb_true_iff in Ha as [Hx Ha]. apply andb_true_iff. split; auto.
Qed.

(** A valid name followed by valid bytes is a valid name. *)
Lemma IsValidMetricName_app (a b : string) :
  IsValidMetricName a = true -> validFrom 1 b = true ->
  IsValidMetricName (a +:+ b) = true.
Proof.
  unfold IsValidMetricName. destruct a as [|x a]; [discriminate|].
  rewrite append_cons. cbn [String.length Nat.eqb negb andb validFrom].
  intros Ha Hb. apply andb_true_iff in Ha as [Hx Ha].
  apply andb_true_iff. split; [exact Hx|]. now apply validFrom_app.
Qed.

Lemma metricNames_valid_bare :
  Forall (fun name => IsValidMetricName ("zfs_" +:+ name) = true) metricNames.
Proof. repeat constructor. Qed.

Lemma metricNames_valid_tail :
  Forall (fun name => validFrom 1 ("_zfs_" +:+ name) = true) metricNames.
Proof. repeat constructor. Qed.

Lemma valid_fqName (namespace name : string) :
  validNamespace namespace -> name ∈ metricNames ->
  IsValidMetricName (fqPrefix namespace +:+ name) = true.
Proof.
  intros [-> | Hns] Hin.
  - exact (proj1 (Forall_forall _ _) metricNames_valid_bare name Hin).
  - unfold fqPrefix. destruct (String.eqb namespace "") eqn:E.
    + apply String.eqb_eq in E. subst namespace. discriminate.
    + rewrite string_app_assoc. apply IsValidMetricName_app; [exact Hns|].
      exact (proj1 (Forall_forall _ _) metricNames_valid_tail name Hin).
Qed.

(** Under a valid namespace no descriptor of the table carries an error. *)
Lemma NewZfsCollector_errs (namespace : string) (Quote : string -> string) (logger : Logger) :
  validNamespace namespace ->
  Forall (fun d => err d = None)
         (descriptors (NewZfsCollector namespace Quote logger).1).
Proof.
  intros Hns. unfold descriptors, NewZfsCollector. collector_fields.
  repeat (apply List.Forall_cons;
    [ apply err_NewDesc; rewrite BuildFQName_zfs by discriminate;
      apply valid_fqName; [exact Hns | compute_done] | ]).
  apply List.Forall_nil.
Qed.

(** ** Totality: a cycle against a facility that has every field returns nil *)

Theorem updateZfsArcStats_returns_nil (namespace : string) (Quote : string -> string) (logger : Logger)
    (order : list (string * Desc)) (K : Facility) (w : World)
    (tok : Token) (ks : KStat) :
  validNamespace namespace ->
  rangeOrder (NewZfsCollector namespace Quote logger).1 order ->
  Open K = Ok tok ->
  Lookup tok "zfs" 0 "arcstats" = Ok ks ->
  (forall k, k ∈ fieldNames -> exists n, GetNamed ks k = Ok n) ->
  (updateZfsArcStats (NewZfsCollector namespace Quote logger).1 order K w).2
  = Return None.
Proof.
  intros Hns Hord Ho Hl Hall.
  set (c := (NewZfsCollector namespace Quote logger).1) in *.
  destruct (updateZfsArcStats_run c order K w tok ks Ho Hl)
    as (pre & post & ms & tail & Heq & _ & Hend & _).
  destruct Hend as [ | k v post' e Hk | k v post' n e Hk Hv ]; [reflexivity| |].
  - assert (Hin : k ∈ fieldNames).
    { rewrite <- (rangeOrder_keys c order Hord), Heq, fmap_app, fmap_cons.
      apply elem_of_app. right. apply elem_of_cons. now left. }
    destruct (Hall k Hin) as [n Hn]. congruence.
  - assert (Hin : v ∈ descriptors c).
    { rewrite <- (rangeOrder_descs c order Hord), Heq, fmap_app, fmap_cons.
      apply elem_of_app. right. apply elem_of_cons. now left. }
    pose proof (proj1 (Forall_forall _ _)
                  (NewZfsCollector_errs namespace Quote logger Hns) v Hin) as Hnone.
    simpl in Hnone. congruence.
Qed.

(** * The claims *)

(** ** Construction *)

(** C8: [NewZfsCollector] cannot fail.  For every namespace and logger it
    returns a nil error together with a collector that keeps the logger
    and holds the fifteen descriptors, each with the name and the help
    text written in the source, the names being pairwise distinct. *)
Theorem NewZfsCollector_cannot_fail (namespace : string) (Quote : string -> string) (logger0 : Logger) :
  (NewZfsCollector namespace Quote logger0).2 = None /\
  logger (NewZfsCollector namespace Quote logger0).1 = logger0 /\
  length (descriptors (NewZfsCollector namespace Quote logger0).1) = 15%nat /\
  fqName <$> descriptors (NewZfsCollector namespace Quote logger0).1 =
    BuildFQName namespace zfsCollectorSubsystem <$> metricNames /\
  help <$> descriptors (NewZfsCollector namespace Quote logger0).1 =
    [ "ZFS ARC target size"; "ZFS ARC maximum size"; "ZFS ARC minimum size";
      "ZFS ARC data size"; "ZFS ARC demand data hits";
      "ZFS ARC demand data misses"; "ZFS ARC demand metadata hits";
      "ZFS ARC demand metadata misses"; "ZFS ARC hits"; "ZFS ARC misses";
      "ZFS ARC MFU ghost hits"; "ZFS ARC MRU ghost hits";
      "ZFS ARC other size"; "ZFS ARC MRU target size"; "ZFS ARC size" ] /\
  NoDup (fqName <$> descriptors (NewZfsCollector namespace Quote logger0).1).
Proof.
  split; [reflexivity|]. split; [reflexivity|]. split; [reflexivity|].
  split; [|split; [|apply NewZfsCollector_fqNames_NoDup]].
  - unfold descriptors, NewZfsCollector, metricNames. collector_fields.
    rewrite !fmap_cons, !fmap_nil, !fqName_NewDesc. reflexivity.
  - unfold descriptors, NewZfsCollector. collector_fields.
    rewrite !fmap_cons, !fmap_nil, !help_NewDesc. reflexivity.
Qed.

(** ** The wrapper *)

Lemma wrapped_neq (e : error) :
  errors_New ("updateZfsArcStats: " +:+ Error e) <> e.
Proof.
  destruct e as [s]. cbn [Error]. intros H. injection H as H.
  apply (f_equal String.length) in H. rewrite string_length_app in H.
  cbn [String.length] in H. lia.
Qed.

Lemma Update_unfold (c : zfsCollector) (order : list (string * Desc))
    (K : Facility) (w : World) :
  Update c order K w =
  ((updateZfsArcStats c order K w).1,
   match (updateZfsArcStats c order K w).2 with
   | Return (Some e) =>
       Return (Some (errors_New ("updateZfsArcStats: " +:+ Error e)))
   | out => out
   end).
Proof.
  unfold Update. destruct (updateZfsArcStats c order K w) as [w' [[e|]|e]];
    reflexivity.
Qed.

(** C10: [Update] returns nil exactly when [updateZfsArcStats] does, and
    every non-nil error it returns is a new error whose message is the
    inner error's message after the prefix "updateZfsArcStats: "; such an
    error is never the inner error itself. *)
Theorem Update_wraps_every_error (c : zfsCollector)
    (order : list (string * Desc)) (K : Facility) (w : World) :
  ((Update c order K w).2 = Return None <->
   (updateZfsArcStats c order K w).2 = Return None) /\
  (forall e, (Update c order K w).2 = Return (Some e) ->
     exists e', (updateZfsArcStats c order K w).2 = Return (Some e') /\
                Error e = "updateZfsArcStats: " +:+ Error e' /\
                e <> e') /\
  (forall e', (updateZfsArcStats c order K w).2 = Return (Some e') ->
     (Update c order K w).2 =
       Return (Some (errors_New ("updateZfsArcStats: " +:+ Error e')))).
Proof.
  rewrite Update_unfold. cbn [snd].
  destruct (updateZfsArcStats c order K w).2 as [[e0|]|e0].
  - split; [split; discriminate|]. split.
    + intros e He. injection He as <-. exists e0.
      split; [reflexivity|]. split; [reflexivity|]. apply wrapped_neq.
    + intros e' He'. injection He' as ->. reflexivity.
  - split; [tauto|]. split; intros ?; discriminate.
  - split; [split; discriminate|]. split; intros ?; discriminate.
Qed.

(** ** Failure to open the facility *)

(** C5, as the code has it: when the facility fails to open, the cycle
    has no effect at all (no sample is sent, no handle is opened),
    [updateZfsArcStats] returns the error of [kstat.Open] unchanged, and
    [Update] returns a new error whose message is that error's message
    after the prefix "updateZfsArcStats: ". *)
Theorem open_failure_reported (c : zfsCollector)
    (order : list (string * Desc)) (K : Facility) (w : World) (e : error) :
  Open K = Err e ->
  updateZfsArcStats c order K w = (w, Return (Some e)) /\
  Update c order K w =
    (w, Return (Some (errors_New ("updateZfsArcStats: " +:+ Error e)))) /\
  sent (Update c order K w).1 = sent w.
Proof.
  intros Ho. pose proof (updateZfsArcStats_open_fails c order K w e Ho) as Hu.
  split; [exact Hu|]. rewrite Update_unfold, Hu. auto.
Qed.

Lemma open_failure_reported_witness :
  Update nodeCollector (arcstatsEntries nodeCollector) closedFacility [] =
  ([], Return (Some (errors_New "updateZfsArcStats: permission denied"))).
Proof.
  exact (proj1 (proj2 (open_failure_reported nodeCollector
    (arcstatsEntries nodeCollector) closedFacility []
    (errors_New "permission denied") eq_refl))).
Defined.

(** C5 as stated fails: the error of [kstat.Open] does not reach the
    caller of [Update] unchanged. *)
Lemma Update_open_error_not_verbatim :
  Open closedFacility = Err (errors_New "permission denied") /\
  (Update nodeCollector (arcstatsEntries nodeCollector) closedFacility []).2
  <> Return (Some (errors_New "permission denied")).
Proof. split; [reflexivity | discriminate]. Qed.

(** ** Release of the handle *)

(** C9: once [kstat.Open] has given a handle, the cycle closes it as its
    last effect, whatever happens in between (success, failed lookup,
    failed fetch, panic); the handle is opened and closed once, so the
    number of open handles is what it was before the cycle. *)
Theorem handle_released_on_every_exit (c : zfsCollector)
    (order : list (string * Desc)) (K : Facility) (w : World) (tok : Token) :
  Open K = Ok tok ->
  exists evs,
    (updateZfsArcStats c order K w).1 = w ++ [EvOpen] ++ evs ++ [EvClose] /\
    (EvOpen ∉ evs) /\ (EvClose ∉ evs) /\
    open_handles (updateZfsArcStats c order K w).1 = open_handles w /\
    (Update c order K w).1 = (updateZfsArcStats c order K w).1.
Proof.
  intros Ho.
  assert (Hcount : forall evs, (EvOpen ∉ evs) -> (EvClose ∉ evs) ->
            open_handles evs = 0).
  { induction evs as [|ev evs IH]; [reflexivity|]. intros H1 H2.
    apply not_elem_of_cons in H1 as [? ?], H2 as [? ?].
    destruct ev; simpl; auto; congruence. }
  assert (Hgoal : exists evs,
    (updateZfsArcStats c order K w).1 = w ++ [EvOpen] ++ evs ++ [EvClose] /\
    (EvOpen ∉ evs) /\ (EvClose ∉ evs)).
  { destruct (Lookup tok "zfs" 0 "arcstats") as [ks|e] eqn:Hl.
    - destruct (updateZfsArcStats_run c order K w tok ks Ho Hl)
        as (pre & post & ms & tail & _ & _ & Hend & Hw).
      exists (EvLookup "zfs" 0 "arcstats" :: loopEvents pre ms ++ tail).
      split; [rewrite Hw; simpl; now rewrite <- !app_assoc|].
      destruct (loopEvents_handles pre ms) as [Ho1 Hc1].
      destruct (loopEnd_tail _ _ _ _ Hend) as (_ & _ & Ho2 & Hc2).
      split; intros Hin; apply elem_of_cons in Hin as [Hin|Hin];
        try discriminate; apply elem_of_app in Hin as [Hin|Hin]; tauto.
    - rewrite (updateZfsArcStats_lookup_fails _ _ _ _ _ _ Ho Hl).
      exists [EvLookup "zfs" 0 "arcstats"]. split; [reflexivity|].
      split; intros Hin; apply list_elem_of_singleton in Hin; discriminate. }
  destruct Hgoal as (evs & Hw & Hno & Hnc). exists evs.
  split; [exact Hw|]. split; [exact Hno|]. split; [exact Hnc|]. split.
  - rewrite Hw, !open_handles_app, (Hcount evs Hno Hnc). simpl. lia.
  - now rewrite Update_unfold.
Qed.

Lemma handle_released_on_every_exit_witness :
  exists evs,
    (updateZfsArcStats nodeCollector (arcstatsEntries nodeCollector)
       emptyFacility []).1 = [] ++ [EvOpen] ++ evs ++ [EvClose] /\
    (EvOpen ∉ evs) /\ (EvClose ∉ evs) /\
    open_handles (updateZfsArcStats nodeCollector
       (arcstatsEntries nodeCollector) emptyFacility []).1 = open_handles [] /\
    (Update nodeCollector (arcstatsEntries nodeCollector) emptyFacility []).1 =
    (updateZfsArcStats nodeCollector (arcstatsEntries nodeCollector)
       emptyFacility []).1.
Proof.
  exact (handle_released_on_every_exit nodeCollector
    (arcstatsEntries nodeCollector) emptyFacility []
    (mkToken (fun _ _ _ => Err (errors_New "no such kstat"))) eq_refl).
Defined.

(** ** The samples of a successful cycle *)

(** C1, as the code has it: the map literal has fifteen entries, not
    fourteen.  A cycle that returns nil fetches every one of the fifteen
    field names once and sends exactly fifteen samples, one per entry of
    the order of the range; the names of the samples are, up to order, the
    names of the fifteen descriptors of the table, all distinct; and the
    entries pair the fifteen distinct field names with the fifteen
    distinct descriptors one to one. *)
Theorem updateZfsArcStats_emits_fifteen (namespace : string) (Quote : string -> string)
    (logger0 : Logger) (order : list (string * Desc)) (K : Facility)
    (w w' : World) :
  rangeOrder (NewZfsCollector namespace Quote logger0).1 order ->
  updateZfsArcStats (NewZfsCollector namespace Quote logger0).1 order K w
    = (w', Return None) ->
  exists ms,
    sent w' = sent w ++ ms /\
    length ms = 15%nat /\
    fetched w' = fetched w ++ order.*1 /\
    order.*1 ≡ₚ fieldNames /\
    desc <$> ms = order.*2 /\
    fqName <$> (desc <$> ms) ≡ₚ
      fqName <$> descriptors (NewZfsCollector namespace Quote logger0).1 /\
    NoDup (fqName <$> (desc <$> ms)) /\
    order ≡ₚ zip fieldNames (descriptors (NewZfsCollector namespace Quote logger0).1) /\
    length fieldNames = 15%nat /\
    length (descriptors (NewZfsCollector namespace Quote logger0).1) = 15%nat /\
    NoDup fieldNames /\
    NoDup (descriptors (NewZfsCollector namespace Quote logger0).1).
Proof.
  set (c := (NewZfsCollector namespace Quote logger0).1). intros Hord Hrun.
  destruct (updateZfsArcStats_emitted c order K w)
    as (pre & post & ms & Heq & Hpre & Hsent & Hnil).
  rewrite Hrun in Hsent, Hnil. cbn [fst snd] in Hsent, Hnil.
  destruct (Hnil eq_refl) as [-> Hfetched]. rewrite app_nil_r in Heq.
  subst pre. exists ms.
  pose proof (Forall2_cycleSample_desc _ _ _ Hpre) as Hdesc.
  assert (Hnames : fqName <$> (desc <$> ms) ≡ₚ fqName <$> descriptors c).
  { rewrite Hdesc. now rewrite (rangeOrder_descs c order Hord). }
  split; [exact Hsent|]. split.
  { rewrite <- (Forall2_length _ _ _ Hpre). exact (rangeOrder_length c _ Hord). }
  split; [exact Hfetched|]. split; [exact (rangeOrder_keys c _ Hord)|].
  split; [exact Hdesc|]. split; [exact Hnames|]. split.
  { rewrite Hnames. apply NewZfsCollector_fqNames_NoDup. }
  split; [exact (rangeOrder_entries c _ Hord)|].
  split; [reflexivity|]. split; [reflexivity|].
  split; [exact fieldNames_NoDup | apply NewZfsCollector_descs_NoDup].
Qed.

Lemma mock_cycle_returns_nil :
  (updateZfsArcStats nodeCollector (map_to_list (arcstatsMap nodeCollector))
     (mockFacility mockFields) []).2 = Return None.
Proof. vm_compute. reflexivity. Qed.

Lemma updateZfsArcStats_emits_fifteen_witness :
  length (sent (updateZfsArcStats nodeCollector
                  (map_to_list (arcstatsMap nodeCollector))
                  (mockFacility mockFields) []).1) = 15%nat.
Proof.
  destruct (updateZfsArcStats_emits_fifteen "node" plainQuote nopLogger
              (map_to_list (arcstatsMap nodeCollector))
              (mockFacility mockFields) []
              (updateZfsArcStats nodeCollector
                 (map_to_list (arcstatsMap nodeCollector))
                 (mockFacility mockFields) []).1)
    as (ms & Hsent & Hlen & _).
  - unfold rangeOrder. reflexivity.
  - vm_compute. reflexivity.
  - rewrite Hsent. exact Hlen.
Defined.

(** C1 as stated fails: a successful cycle sends fifteen samples, not
    fourteen. *)
Lemma updateZfsArcStats_not_fourteen :
  rangeOrder nodeCollector (map_to_list (arcstatsMap nodeCollector)) /\
  (updateZfsArcStats nodeCollector (map_to_list (arcstatsMap nodeCollector))
     (mockFacility mockFields) []).2 = Return None /\
  length (sent (updateZfsArcStats nodeCollector
                  (map_to_list (arcstatsMap nodeCollector))
                  (mockFacility mockFields) []).1) <> 14%nat.
Proof.
  split; [unfold rangeOrder; reflexivity|].
  split; vm_compute; [reflexivity | discriminate].
Qed.

(** ** The entries a cycle gets through *)

Lemma fieldSample_fetched (ks : KStat) (kv : string * Desc) (n : Named) :
  GetNamed ks kv.1 = Ok n -> err kv.2 = None ->
  fieldSample ks kv =
  Some (mkMetric kv.2 (metricTypeOf kv.1) (float64 (UintVal n))).
Proof.
  intros Hn Hv. unfold fieldSample, NewConstMetric. now rewrite Hn, Hv.
Qed.

(** Entries that can be fetched and whose descriptors are sound each give
    their metric. *)
Lemma fetched_entries_sample (ks : KStat) (pre : list (string * Desc)) :
  Forall (fun kv => (exists n, GetNamed ks kv.1 = Ok n) /\ err kv.2 = None)
         pre ->
  exists ms, Forall2 (fun kv m => fieldSample ks kv = Some m) pre ms.
Proof.
  induction 1 as [|kv pre [[n Hn] Hv] _ [ms IH]].
  - exists []. constructor.
  - exists (mkMetric kv.2 (metricTypeOf kv.1) (float64 (UintVal n)) :: ms).
    constructor; [now apply fieldSample_fetched | exact IH].
Qed.

(** Under a valid namespace every entry of the range has a sound
    descriptor. *)
Lemma range_entries_sound (namespace : string) (Quote : string -> string) (logger0 : Logger)
    (order pre post : list (string * Desc)) (ks : KStat) :
  validNamespace namespace ->
  rangeOrder (NewZfsCollector namespace Quote logger0).1 order ->
  order = pre ++ post ->
  Forall (fun kv => exists n, GetNamed ks kv.1 = Ok n) pre ->
  Forall (fun kv => (exists n, GetNamed ks kv.1 = Ok n) /\ err kv.2 = None)
         pre.
Proof.
  intros Hns Hord Heq Hpre. apply Forall_forall. intros kv Hkv.
  split; [exact (proj1 (Forall_forall _ _) Hpre kv Hkv)|].
  assert (Hin : kv.2 ∈ descriptors (NewZfsCollector namespace Quote logger0).1).
  { rewrite <- (rangeOrder_descs _ order Hord), Heq, fmap_app.
    apply elem_of_app. left. now apply list_elem_of_fmap_2. }
  exact (proj1 (Forall_forall _ _)
           (NewZfsCollector_errs namespace Quote logger0 Hns) _ Hin).
Qed.

(** The samples of the entries a cycle gets through are sent, in the order
    of the range, before anything else the cycle sends; when these are all
    the entries, nothing else is sent and the cycle returns nil. *)
Lemma updateZfsArcStats_through (c : zfsCollector)
    (pre post : list (string * Desc)) (K : Facility) (w : World)
    (tok : Token) (ks : KStat) (ms : list Metric) :
  Open K = Ok tok ->
  Lookup tok "zfs" 0 "arcstats" = Ok ks ->
  Forall2 (fun kv m => fieldSample ks kv = Some m) pre ms ->
  exists rest,
    sent (updateZfsArcStats c (pre ++ post) K w).1 = sent w ++ ms ++ rest /\
    (post = [] ->
     rest = [] /\ (updateZfsArcStats c (pre ++ post) K w).2 = Return None).
Proof.
  intros Ho Hl Hpre. rewrite (updateZfsArcStats_loop _ _ _ _ _ _ Ho Hl).
  rewrite (rangeArcstats_app _ _ _ _ _ Hpre). cbn [fst snd].
  destruct (rangeArcstats_run ks post
              ((w ++ [EvOpen; EvLookup "zfs" 0 "arcstats"])
                 ++ loopEvents pre ms))
    as (pre' & post' & ms' & tail & Heq & Hpre' & Hend & Hw).
  exists ms'. split.
  - rewrite Hw, !sent_app.
    rewrite (sent_loopEvents _ _ (Forall2_length _ _ _ Hpre)).
    rewrite (sent_loopEvents _ _ (Forall2_length _ _ _ Hpre')).
    destruct (loopEnd_tail _ _ _ _ Hend) as (-> & _). simpl.
    rewrite !app_nil_r, <- !app_assoc. reflexivity.
  - intros ->. symmetry in Heq. apply app_eq_nil in Heq as [-> ->].
    apply Forall2_nil_inv_l in Hpre'. split; [exact Hpre'|].
    inversion Hend. reflexivity.
Qed.

(** ** Kinds *)

(** C2: for every entry of the range that a cycle gets through, that is
    whose field the facility lets it fetch, the cycle sends a sample of
    that entry's descriptor, and the kind of this sample is Counter
    exactly when the field name ends in "_hits" or in "_misses", and Gauge
    otherwise: the sample of "demand_data_hits" is a Counter and the
    sample of "c_max" a Gauge.  When every field can be fetched, this
    covers every field name of the queried set, nothing else is sent and
    the cycle returns nil. *)
Theorem sample_kind_by_suffix (namespace : string) (Quote : string -> string) (logger0 : Logger)
    (order pre post : list (string * Desc)) (K : Facility) (w : World)
    (tok : Token) (ks : KStat) :
  validNamespace namespace ->
  rangeOrder (NewZfsCollector namespace Quote logger0).1 order ->
  order = pre ++ post ->
  Open K = Ok tok ->
  Lookup tok "zfs" 0 "arcstats" = Ok ks ->
  Forall (fun kv => exists n, GetNamed ks kv.1 = Ok n) pre ->
  exists ms rest,
    sent (updateZfsArcStats (NewZfsCollector namespace Quote logger0).1
            order K w).1 = sent w ++ ms ++ rest /\
    Forall2 (fun kv m =>
       kv.1 ∈ fieldNames /\ desc m = kv.2 /\
       (valType m = CounterValue <->
        ends_in kv.1 "_hits" \/ ends_in kv.1 "_misses") /\
       (valType m = GaugeValue <->
        ~ (ends_in kv.1 "_hits" \/ ends_in kv.1 "_misses")) /\
       (kv.1 = "demand_data_hits" -> valType m = CounterValue) /\
       (kv.1 = "c_max" -> valType m = GaugeValue)) pre ms /\
    (post = [] ->
     rest = [] /\ pre.*1 ≡ₚ fieldNames /\
     (updateZfsArcStats (NewZfsCollector namespace Quote logger0).1
        order K w).2 = Return None).
Proof.
  intros Hns Hord Heq Ho Hl Hpre.
  set (c := (NewZfsCollector namespace Quote logger0).1) in *.
  destruct (fetched_entries_sample ks pre
              (range_entries_sound namespace Quote logger0 order pre post ks
                 Hns Hord Heq Hpre)) as [ms Hms].
  destruct (updateZfsArcStats_through c pre post K w tok ks ms Ho Hl Hms)
    as (rest & Hsent & Hnil).
  rewrite <- Heq in Hsent, Hnil.
  exists ms, rest. split; [exact Hsent|]. split.
  - assert (Hin : forall kv, kv ∈ pre -> kv.1 ∈ fieldNames).
    { intros kv Hkv. rewrite <- (rangeOrder_keys c order Hord), Heq, fmap_app.
      apply elem_of_app. left. now apply list_elem_of_fmap_2. }
    clear Heq Hsent Hnil Hpre. induction Hms as [|kv m pre ms Hkv _ IH];
      constructor.
    + destruct (fieldSample_inv _ _ _ Hkv) as (n & _ & _ & ->).
      cbn [desc valType]. split; [apply Hin, elem_of_cons; now left|].
      split; [reflexivity|].
      split; [apply metricTypeOf_Counter|].
      split; [apply metricTypeOf_Gauge|].
      split; intros ->; reflexivity.
    + apply IH. intros kv' Hkv'. apply Hin, elem_of_cons. now right.
  - intros Hpost. destruct (Hnil Hpost) as [Hrest Hout].
    split; [exact Hrest|]. split; [|exact Hout].
    rewrite Hpost, app_nil_r in Heq. subst pre.
    exact (rangeOrder_keys c order Hord).
Qed.

Lemma mockGroup_has_fields :
  Forall (fun kv => exists n, GetNamed (mockGroup mockFields) kv.1 = Ok n)
         (arcstatsEntries nodeCollector).
Proof.
  unfold arcstatsEntries.
  repeat (apply List.Forall_cons; [eexists; vm_compute; reflexivity|]).
  apply List.Forall_nil.
Qed.

Lemma sample_kind_by_suffix_witness :
  exists ms rest,
    sent (updateZfsArcStats nodeCollector (arcstatsEntries nodeCollector)
            (mockFacility mockFields) []).1 = sent [] ++ ms ++ rest /\
    Forall2 (fun kv m =>
       kv.1 ∈ fieldNames /\ desc m = kv.2 /\
       (valType m = CounterValue <->
        ends_in kv.1 "_hits" \/ ends_in kv.1 "_misses") /\
       (valType m = GaugeValue <->
        ~ (ends_in kv.1 "_hits" \/ ends_in kv.1 "_misses")) /\
       (kv.1 = "demand_data_hits" -> valType m = CounterValue) /\
       (kv.1 = "c_max" -> valType m = GaugeValue))
      (arcstatsEntries nodeCollector) ms /\
    (@nil (string * Desc) = [] ->
     rest = [] /\ (arcstatsEntries nodeCollector).*1 ≡ₚ fieldNames /\
     (updateZfsArcStats nodeCollector (arcstatsEntries nodeCollector)
        (mockFacility mockFields) []).2 = Return None).
Proof.
  apply (sample_kind_by_suffix "node" plainQuote nopLogger
           (arcstatsEntries nodeCollector) (arcstatsEntries nodeCollector) []
           (mockFacility mockFields) []
           (mkToken (fun _ _ _ => Ok (mockGroup mockFields)))
           (mockGroup mockFields)).
  - right. reflexivity.
  - unfold rangeOrder, arcstatsMap. symmetry. apply map_to_list_to_map.
    exact fieldNames_NoDup.
  - symmetry. apply app_nil_r.
  - reflexivity.
  - reflexivity.
  - exact mockGroup_has_fields.
Defined.

(** ** Independence of cycles *)

(** C7: two consecutive cycles against the same facility that both return
    nil send the same samples up to the order of the range, hence the same
    set of (name, kind, value) tuples; with the same order they send the
    same sequence.  Nothing of the world left by the first cycle enters
    the second. *)
Theorem consecutive_cycles_same_samples (c : zfsCollector)
    (order1 order2 : list (string * Desc)) (K : Facility) (w w1 w2 : World) :
  rangeOrder c order1 ->
  rangeOrder c order2 ->
  updateZfsArcStats c order1 K w = (w1, Return None) ->
  updateZfsArcStats c order2 K w1 = (w2, Return None) ->
  exists ms1 ms2,
    sent w1 = sent w ++ ms1 /\
    sent w2 = sent w1 ++ ms2 /\
    ms1 ≡ₚ ms2 /\
    tupleOf <$> ms1 ≡ₚ tupleOf <$> ms2 /\
    (forall t, t ∈ tupleOf <$> ms1 <-> t ∈ tupleOf <$> ms2) /\
    (order1 = order2 -> ms1 = ms2).
Proof.
  intros Hord1 Hord2 Hrun1 Hrun2.
  destruct (updateZfsArcStats_emitted c order1 K w)
    as (pre1 & post1 & ms1 & Heq1 & Hpre1 & Hsent1 & Hnil1).
  destruct (updateZfsArcStats_emitted c order2 K w1)
    as (pre2 & post2 & ms2 & Heq2 & Hpre2 & Hsent2 & Hnil2).
  rewrite Hrun1 in Hsent1, Hnil1. rewrite Hrun2 in Hsent2, Hnil2.
  cbn [fst snd] in *.
  destruct (Hnil1 eq_refl) as [-> _]. destruct (Hnil2 eq_refl) as [-> _].
  rewrite app_nil_r in Heq1, Heq2. subst pre1 pre2.
  apply Forall2_cycleSample_omap in Hpre1, Hpre2.
  assert (Hperm : ms1 ≡ₚ ms2).
  { rewrite Hpre1, Hpre2. apply omap_Permutation.
    unfold rangeOrder in Hord1, Hord2. now rewrite Hord1, Hord2. }
  exists ms1, ms2. split; [exact Hsent1|]. split; [exact Hsent2|].
  split; [exact Hperm|]. split; [now rewrite Hperm|].
  split; [intros t; now rewrite Hperm|].
  intros ->. now rewrite Hpre1, Hpre2.
Qed.

Lemma consecutive_cycles_same_samples_witness :
  exists ms1 ms2,
    sent (updateZfsArcStats nodeCollector
            (map_to_list (arcstatsMap nodeCollector))
            (mockFacility mockFields) []).1 = sent [] ++ ms1 /\
    sent (updateZfsArcStats nodeCollector
            (reverse (map_to_list (arcstatsMap nodeCollector)))
            (mockFacility mockFields)
            (updateZfsArcStats nodeCollector
               (map_to_list (arcstatsMap nodeCollector))
               (mockFacility mockFields) []).1).1 =
      sent (updateZfsArcStats nodeCollector
              (map_to_list (arcstatsMap nodeCollector))
              (mockFacility mockFields) []).1 ++ ms2 /\
    ms1 ≡ₚ ms2 /\
    tupleOf <$> ms1 ≡ₚ tupleOf <$> ms2 /\
    (forall t, t ∈ tupleOf <$> ms1 <-> t ∈ tupleOf <$> ms2) /\
    (map_to_list (arcstatsMap nodeCollector) =
     reverse (map_to_list (arcstatsMap nodeCollector)) -> ms1 = ms2).
Proof.
  apply (consecutive_cycles_same_samples nodeCollector
           (map_to_list (arcstatsMap nodeCollector))
           (reverse (map_to_list (arcstatsMap nodeCollector)))
           (mockFacility mockFields) []).
  - unfold rangeOrder. reflexivity.
  - unfold rangeOrder. apply reverse_Permutation.
  - vm_compute. reflexivity.
  - vm_compute. reflexivity.
Defined.

(** ** Failure to fetch a field *)

(** C4: when the fetch of a field fails after the iterations over [pre]
    went through, the cycle stops there: it returns an error whose message
    names the field and carries the message of the fetch error, the
    samples of [pre] are on the channel and nothing else is, no field
    after the failing one is fetched, the handle is closed, and [Update]
    returns a non-nil error to its caller. *)
Theorem field_failure_aborts_cycle (c : zfsCollector)
    (pre post : list (string * Desc)) (k : string) (v : Desc)
    (K : Facility) (w : World) (tok : Token) (ks : KStat)
    (ms : list Metric) (e : error) :
  Open K = Ok tok ->
  Lookup tok "zfs" 0 "arcstats" = Ok ks ->
  Forall2 (fun kv m => fieldSample ks kv = Some m) pre ms ->
  GetNamed ks k = Err e ->
  (updateZfsArcStats c (pre ++ (k, v) :: post) K w).2 =
    Return (Some (errors_New
      ("ksZFSInfo.GetNamed(" +:+ k +:+ "): " +:+ Error e))) /\
  (updateZfsArcStats c (pre ++ (k, v) :: post) K w).1 =
    w ++ [EvOpen; EvLookup "zfs" 0 "arcstats"] ++ loopEvents pre ms
      ++ [EvGetNamed k; EvClose] /\
  sent (updateZfsArcStats c (pre ++ (k, v) :: post) K w).1 = sent w ++ ms /\
  fetched (updateZfsArcStats c (pre ++ (k, v) :: post) K w).1 =
    fetched w ++ pre.*1 ++ [k] /\
  (Update c (pre ++ (k, v) :: post) K w).2 =
    Return (Some (errors_New
      ("updateZfsArcStats: " +:+ "ksZFSInfo.GetNamed(" +:+ k +:+ "): "
       +:+ Error e))).
Proof.
  intros Ho Hl Hpre Hk.
  assert (Hrun : updateZfsArcStats c (pre ++ (k, v) :: post) K w =
    (w ++ [EvOpen; EvLookup "zfs" 0 "arcstats"] ++ loopEvents pre ms
       ++ [EvGetNamed k; EvClose],
     Return (Some (errors_New
       ("ksZFSInfo.GetNamed(" +:+ k +:+ "): " +:+ Error e))))).
  { rewrite (updateZfsArcStats_loop _ _ _ _ _ _ Ho Hl).
    rewrite (rangeArcstats_app _ _ _ _ _ Hpre).
    rewrite (loopEnd_run ks ((k, v) :: post) [EvGetNamed k] _ _
               (loopEnd_fetch ks k v post e Hk)).
    cbn [fst snd]. now rewrite <- !app_assoc. }
  rewrite Update_unfold, Hrun. cbn [fst snd Error].
  split; [reflexivity|]. split; [reflexivity|]. split; [|split].
  - rewrite !sent_app, (sent_loopEvents _ _ (Forall2_length _ _ _ Hpre)).
    simpl. now rewrite app_nil_r.
  - rewrite !fetched_app, (fetched_loopEvents _ _ (Forall2_length _ _ _ Hpre)).
    reflexivity.
  - reflexivity.
Qed.

Lemma field_failure_aborts_cycle_witness :
  (Update nodeCollector (arcstatsEntries nodeCollector)
     (mockFacility mockFieldsNoP) []).2 =
  Return (Some (errors_New
    "updateZfsArcStats: ksZFSInfo.GetNamed(p): invalid argument")).
Proof.
  refine (proj2 (proj2 (proj2 (proj2
    (field_failure_aborts_cycle nodeCollector
       (take 13 (arcstatsEntries nodeCollector))
       (drop 14 (arcstatsEntries nodeCollector))
       "p" (arcstatsP nodeCollector)
       (mockFacility mockFieldsNoP) []
       (mkToken (fun _ _ _ => Ok (mockGroup mockFieldsNoP)))
       (mockGroup mockFieldsNoP)
       (omap (fieldSample (mockGroup mockFieldsNoP))
          (take 13 (arcstatsEntries nodeCollector)))
       (errors_New "invalid argument")
       eq_refl eq_refl _ eq_refl))))).
  apply mapM_Some. vm_compute. reflexivity.
Defined.

(** ** The kind of [hits] *)

(** C3, on the code: in a cycle of the [node] collector against the mock
    facility, which returns nil, the sample of the field [hits] has a name
    ending in "zfs_arcstats_hits_total" but the kind Gauge, since "hits"
    does not end in "_hits"; the sample of [c] has a name ending in
    "zfs_arcstats_c_bytes" and the kind Gauge. *)
Theorem hits_sample_is_gauge :
  (updateZfsArcStats nodeCollector (map_to_list (arcstatsMap nodeCollector))
     (mockFacility mockFields) []).2 = Return None /\
  filter (fun m => desc m = arcstatsHits nodeCollector)
    (sent (updateZfsArcStats nodeCollector
             (map_to_list (arcstatsMap nodeCollector))
             (mockFacility mockFields) []).1) =
    [ mkMetric (arcstatsHits nodeCollector) GaugeValue (float64 50) ] /\
  fqName (arcstatsHits nodeCollector) = "node_zfs_arcstats_hits_total" /\
  ends_in (fqName (arcstatsHits nodeCollector)) "zfs_arcstats_hits_total" /\
  strings.HasSuffix "hits" "_hits" = false /\
  metricTypeOf "hits" = GaugeValue /\
  metricTypeOf "misses" = GaugeValue /\
  filter (fun m => desc m = arcstatsC nodeCollector)
    (sent (updateZfsArcStats nodeCollector
             (map_to_list (arcstatsMap nodeCollector))
             (mockFacility mockFields) []).1) =
    [ mkMetric (arcstatsC nodeCollector) GaugeValue (float64 1000) ] /\
  ends_in (fqName (arcstatsC nodeCollector)) "zfs_arcstats_c_bytes".
Proof.
  split; [vm_compute; reflexivity|]. split; [vm_compute; reflexivity|].
  split; [reflexivity|]. split; [exists "node_"; reflexivity|].
  split; [reflexivity|]. split; [reflexivity|]. split; [reflexivity|].
  split; [vm_compute; reflexivity|]. exists "node_". reflexivity.
Qed.

(** ** Conversion to floating point *)

Lemma digits2_pos_bounds (p : positive) :
  2 ^ (Z.pos (digits2_pos p) - 1) <= Z.pos p < 2 ^ Z.pos (digits2_pos p).
Proof.
  induction p as [p IH|p IH|]; cbn [digits2_pos].
  - rewrite Pos2Z.inj_succ.
    replace (Z.succ (Z.pos (digits2_pos p)) - 1) with (Z.succ (Z.pos (digits2_pos p) - 1)) by lia.
    rewrite !Z.pow_succ_r by lia. lia.
  - rewrite Pos2Z.inj_succ.
    replace (Z.succ (Z.pos (digits2_pos p)) - 1) with (Z.succ (Z.pos (digits2_pos p) - 1)) by lia.
    rewrite !Z.pow_succ_r by lia. lia.
  - simpl. lia.
Qed.

Lemma digits2_pos_unique (p : positive) (n : Z) :
  2 ^ (n - 1) <= Z.pos p < 2 ^ n -> Z.pos (digits2_pos p) = n.
Proof.
  intros [Hlo Hhi]. pose proof (digits2_pos_bounds p) as [Dlo Dhi].
  set (d := Z.pos (digits2_pos p)) in *.
  assert (0 < d) by (unfold d; lia).
  destruct (Z.lt_trichotomy d n) as [Hlt | [Heq | Hgt]]; [|exact Heq|].
  - assert (2 ^ d <= 2 ^ (n - 1)) by (apply Z.pow_le_mono_r; lia). lia.
  - assert (0 <= n).
    { destruct (Z.neg_nonneg_cases n) as [Hn|Hn]; [|exact Hn].
      rewrite (Z.pow_neg_r 2 n) in Hhi by exact Hn. lia. }
    assert (2 ^ n <= 2 ^ (d - 1)) by (apply Z.pow_le_mono_r; lia). lia.
Qed.

Lemma iter_xO (p k : positive) :
  Z.pos (Pos.iter xO p k) = Z.pos p * 2 ^ Z.pos k.
Proof.
  revert p. induction k as [|k IH] using Pos.peano_ind; intros p.
  - simpl. lia.
  - rewrite Pos.iter_succ, Pos2Z.inj_xO, IH, Pos2Z.inj_succ, Z.pow_succ_r by lia.
    lia.
Qed.

Lemma shr_1_even (q : Z) :
  0 <= q ->
  shr_1 (Build_shr_record (q * 2) false false) = Build_shr_record q false false.
Proof.
  intros Hq. destruct q as [|q|q]; [reflexivity| |lia].
  replace (Z.pos q * 2) with (Z.pos q~0) by lia. reflexivity.
Qed.

Lemma pow2_xI (k : positive) :
  2 ^ Z.pos k~1 = 2 ^ Z.pos k * 2 ^ Z.pos k * 2.
Proof.
  replace (Z.pos k~1) with (Z.pos k + Z.pos k + 1) by lia.
  rewrite !Z.pow_add_r by lia. reflexivity.
Qed.

Lemma pow2_xO (k : positive) : 2 ^ Z.pos k~0 = 2 ^ Z.pos k * 2 ^ Z.pos k.
Proof.
  replace (Z.pos k~0) with (Z.pos k + Z.pos k) by lia.
  now rewrite Z.pow_add_r by lia.
Qed.

Lemma iter_shr_1_exact (k : positive) (q : Z) :
  0 <= q ->
  SpecFloat.iter_pos shr_1 k (Build_shr_record (q * 2 ^ Z.pos k) false false)
  = Build_shr_record q false false.
Proof.
  revert q. induction k as [k IH|k IH|]; intros q Hq; cbn [SpecFloat.iter_pos].
  - assert (0 < 2 ^ Z.pos k) by (apply Z.pow_pos_nonneg; lia).
    rewrite pow2_xI, !Z.mul_assoc.
    rewrite shr_1_even by nia. rewrite IH by nia. now rewrite IH.
  - assert (0 < 2 ^ Z.pos k) by (apply Z.pow_pos_nonneg; lia).
    rewrite pow2_xO, !Z.mul_assoc. rewrite IH by nia. now rewrite IH.
  - change (2 ^ 1) with 2. now apply shr_1_even.
Qed.

(** No shift is needed for a mantissa of 53 bits. *)
Lemma shr_fexp_53 (mz : positive) (ez : Z) :
  Z.pos (digits2_pos mz) = 53 -> -1074 <= ez ->
  shr_fexp 53 1024 (Z.pos mz) ez loc_Exact
  = (Build_shr_record (Z.pos mz) false false, ez).
Proof.
  intros Hd He. unfold shr_fexp, fexp, emin. cbn [Zdigits2 shr_record_of_loc].
  rewrite Hd.
  replace (Z.max (53 + ez - 53) (3 - 1024 - 53) - ez) with 0 by lia.
  reflexivity.
Qed.

Lemma binary_round_aux_53 (mz : positive) (ez : Z) :
  Z.pos (digits2_pos mz) = 53 -> -1074 <= ez <= 971 ->
  binary_round_aux 53 1024 false (Z.pos mz) ez loc_Exact
  = S754_finite false mz ez.
Proof.
  intros Hd He. unfold binary_round_aux.
  rewrite (shr_fexp_53 mz ez Hd) by lia.
  cbn [shr_m loc_of_shr_record round_nearest_even].
  rewrite (shr_fexp_53 mz ez Hd) by lia. cbn [shr_m].
  replace (ez <=? 1024 - 53) with true by (symmetry; apply Z.leb_le; lia).
  reflexivity.
Qed.

(** A right shift that drops only zero bits. *)
Lemma shr_fexp_shift (p : positive) (q : positive) (k : positive) :
  Z.pos (digits2_pos p) = 53 + Z.pos k ->
  Z.pos p = Z.pos q * 2 ^ Z.pos k ->
  shr_fexp 53 1024 (Z.pos p) 0 loc_Exact
  = (Build_shr_record (Z.pos q) false false, Z.pos k).
Proof.
  intros Hd Hp. unfold shr_fexp, fexp, emin. cbn [Zdigits2 shr_record_of_loc].
  rewrite Hd.
  replace (Z.max (53 + Z.pos k + 0 - 53) (3 - 1024 - 53) - 0) with (Z.pos k)
    by lia.
  cbn [shr]. rewrite Hp, iter_shr_1_exact by lia. reflexivity.
Qed.

Lemma float64_small (p : positive) :
  Z.pos (digits2_pos p) <= 53 ->
  SF2Z (float64 (Z.pos p)) = Some (Z.pos p).
Proof.
  intros Hd. unfold float64, binary_normalize, binary_round, shl_align.
  pose proof (digits2_pos_bounds p) as Hb.
  set (d := Z.pos (digits2_pos p)) in *.
  assert (0 < d) by (unfold d; lia).
  assert (Hf : fexp 53 1024 (d + 0) = d - 53) by (unfold fexp, emin; lia).
  rewrite Hf. rewrite Z.sub_0_r.
  destruct (d - 53) as [|k|k] eqn:Hk; [|lia|].
  - rewrite binary_round_aux_53 by (fold d; lia).
    cbn [SF2Z]. replace (0 <=? 0) with true by reflexivity.
    cbn [cond_Zopp]. f_equal. rewrite Z.pow_0_r. lia.
  - assert (Hpk : 2 ^ (d - 1) * 2 ^ Z.pos k = 2 ^ 52 /\
                  2 ^ d * 2 ^ Z.pos k = 2 ^ 53).
    { rewrite <- !Z.pow_add_r by lia. split; f_equal; lia. }
    assert (0 < 2 ^ Z.pos k) by (apply Z.pow_pos_nonneg; lia).
    rewrite binary_round_aux_53.
    + cbn [SF2Z]. replace (0 <=? Z.neg k) with false by reflexivity.
      rewrite iter_xO. change (- Z.neg k) with (Z.pos k).
      rewrite Z.mod_mul by lia. rewrite Z.eqb_refl. cbn [cond_Zopp].
      f_equal. apply Z.div_mul. lia.
    + apply digits2_pos_unique. rewrite iter_xO.
      change (53 - 1) with 52. nia.
    + lia.
Qed.

Lemma float64_large (p : positive) (m e : Z) :
  53 < Z.pos (digits2_pos p) <= 64 ->
  0 <= m < 2 ^ 53 -> 0 <= e -> Z.pos p = m * 2 ^ e ->
  SF2Z (float64 (Z.pos p)) = Some (Z.pos p).
Proof.
  intros Hd Hm He Hp.
  pose proof (digits2_pos_bounds p) as Hb.
  set (d := Z.pos (digits2_pos p)) in *.
  destruct (d - 53) as [|k|k] eqn:Hk; [lia| |lia].
  (* the exponent of the representation is at least the shift *)
  assert (Hek : Z.pos k <= e).
  { destruct (Z.le_gt_cases (Z.pos k) e) as [Hle|Hgt]; [exact Hle|].
    assert (2 ^ (53 + e) <= 2 ^ (d - 1)) by (apply Z.pow_le_mono_r; lia).
    rewrite Z.pow_add_r in * by lia.
    assert (0 < 2 ^ e) by (apply Z.pow_pos_nonneg; lia). nia. }
  assert (Hq : Z.pos p = (m * 2 ^ (e - Z.pos k)) * 2 ^ Z.pos k).
  { rewrite <- Z.mul_assoc, <- Z.pow_add_r by lia.
    now replace (e - Z.pos k + Z.pos k) with e by lia. }
  assert (0 < 2 ^ Z.pos k) by (apply Z.pow_pos_nonneg; lia).
  destruct (m * 2 ^ (e - Z.pos k)) as [|q|q] eqn:Hmq; [lia| |lia].
  assert (Hdq : Z.pos (digits2_pos q) = 53).
  { apply digits2_pos_unique. change (53 - 1) with 52.
    assert (2 ^ (d - 1) = 2 ^ 52 * 2 ^ Z.pos k /\
            2 ^ d = 2 ^ 53 * 2 ^ Z.pos k) as [E1 E2].
    { rewrite <- !Z.pow_add_r by lia. split; f_equal; lia. }
    nia. }
  unfold float64, binary_normalize, binary_round, shl_align.
  fold d.
  assert (Hf : fexp 53 1024 (d + 0) = Z.pos k) by (unfold fexp, emin; lia).
  rewrite Hf, Z.sub_0_r. cbv beta iota.
  unfold binary_round_aux.
  rewrite (shr_fexp_shift p q k) by (fold d; lia).
  cbn [shr_m loc_of_shr_record round_nearest_even].
  rewrite (shr_fexp_53 q (Z.pos k) Hdq) by lia. cbn [shr_m].
  replace (Z.pos k <=? 1024 - 53) with true by (symmetry; apply Z.leb_le; lia).
  cbn [SF2Z]. replace (0 <=? Z.pos k) with true by reflexivity.
  cbn [cond_Zopp]. now rewrite Hq.
Qed.

(** A [uint64] that binary64 holds exactly is converted without loss. *)
Theorem float64_exact (u : Z) :
  uint64 u -> binary64_int u -> SF2Z (float64 u) = Some u.
Proof.
  intros [Hlo Hhi] (m & e & Hm & He & Hu).
  destruct u as [|p|p]; [reflexivity| |lia].
  pose proof (digits2_pos_bounds p) as Hb.
  destruct (Z.le_gt_cases (Z.pos (digits2_pos p)) 53) as [Hle|Hgt].
  - now apply float64_small.
  - apply (float64_large p m e); auto. split; [lia|].
    destruct (Z.le_gt_cases (Z.pos (digits2_pos p)) 64) as [H64|H64];
      [exact H64|].
    assert (2 ^ 64 <= 2 ^ (Z.pos (digits2_pos p) - 1))
      by (apply Z.pow_le_mono_r; lia).
    lia.
Qed.

(** C6: for every entry of the range that a cycle gets through, that is
    whose field the facility lets it fetch, the cycle sends a sample of
    that entry's descriptor whose value is the fetched [UintVal] converted
    by [float64]; the conversion loses nothing when the fetched [uint64]
    is an integer that binary64 holds exactly.  A fetched 50 for "hits"
    gives a sample of value 50.0. *)
Theorem sample_value_is_float64 (namespace : string) (Quote : string -> string) (logger0 : Logger)
    (order pre post : list (string * Desc)) (K : Facility) (w : World)
    (tok : Token) (ks : KStat) :
  validNamespace namespace ->
  rangeOrder (NewZfsCollector namespace Quote logger0).1 order ->
  order = pre ++ post ->
  Open K = Ok tok ->
  Lookup tok "zfs" 0 "arcstats" = Ok ks ->
  Forall (fun kv => exists n, GetNamed ks kv.1 = Ok n) pre ->
  exists ms rest,
    sent (updateZfsArcStats (NewZfsCollector namespace Quote logger0).1
            order K w).1 = sent w ++ ms ++ rest /\
    Forall2 (fun kv m =>
       exists n,
         GetNamed ks kv.1 = Ok n /\
         desc m = kv.2 /\
         val m = float64 (UintVal n) /\
         (uint64 (UintVal n) -> binary64_int (UintVal n) ->
          SF2Z (val m) = Some (UintVal n)) /\
         (kv.1 = "hits" -> UintVal n = 50 ->
          val m = S754_finite false 7036874417766400 (-47) /\
          SF2Z (val m) = Some 50)) pre ms /\
    (post = [] ->
     rest = [] /\
     (updateZfsArcStats (NewZfsCollector namespace Quote logger0).1
        order K w).2 = Return None).
Proof.
  intros Hns Hord Heq Ho Hl Hpre.
  set (c := (NewZfsCollector namespace Quote logger0).1) in *.
  destruct (fetched_entries_sample ks pre
              (range_entries_sound namespace Quote logger0 order pre post ks
                 Hns Hord Heq Hpre)) as [ms Hms].
  destruct (updateZfsArcStats_through c pre post K w tok ks ms Ho Hl Hms)
    as (rest & Hsent & Hnil).
  rewrite <- Heq in Hsent, Hnil.
  exists ms, rest. split; [exact Hsent|]. split; [|exact Hnil].
  eapply Forall2_impl; [exact Hms|]. intros kv m Hkv.
  destruct (fieldSample_inv _ _ _ Hkv) as (n & Hn & _ & ->).
  exists n. cbn [desc val]. split; [exact Hn|]. split; [reflexivity|].
  split; [reflexivity|]. split; [apply float64_exact|].
  intros _ ->. split; reflexivity.
Qed.

Lemma sample_value_is_float64_witness :
  exists ms rest,
    sent (updateZfsArcStats nodeCollector (arcstatsEntries nodeCollector)
            (mockFacility mockFields) []).1 = sent [] ++ ms ++ rest /\
    Forall2 (fun kv m =>
       exists n,
         GetNamed (mockGroup mockFields) kv.1 = Ok n /\
         desc m = kv.2 /\
         val m = float64 (UintVal n) /\
         (uint64 (UintVal n) -> binary64_int (UintVal n) ->
          SF2Z (val m) = Some (UintVal n)) /\
         (kv.1 = "hits" -> UintVal n = 50 ->
          val m = S754_finite false 7036874417766400 (-47) /\
          SF2Z (val m) = Some 50)) (arcstatsEntries nodeCollector) ms /\
    (@nil (string * Desc) = [] ->
     rest = [] /\
     (updateZfsArcStats nodeCollector (arcstatsEntries nodeCollector)
        (mockFacility mockFields) []).2 = Return None).
Proof.
  apply (sample_value_is_float64 "node" plainQuote nopLogger
           (arcstatsEntries nodeCollector) (arcstatsEntries nodeCollector) []
           (mockFacility mockFields) []
           (mkToken (fun _ _ _ => Ok (mockGroup mockFields)))
           (mockGroup mockFields)).
  - right. reflexivity.
  - unfold rangeOrder, arcstatsMap. symmetry. apply map_to_list_to_map.
    exact fieldNames_NoDup.
  - symmetry. apply app_nil_r.
  - reflexivity.
  - reflexivity.
  - exact mockGroup_has_fields.
Defined.

(** * Further properties of the collector *)

(** ** Validity of the descriptors and the namespace *)

Lemma validFrom_app_l (i : nat) (a b : string) :
  validFrom i (a +:+ b) = true -> validFrom i a = true.
Proof.
  revert i. induction a as [|x a IH]; intros i H; [reflexivity|].
  rewrite append_cons in H. cbn [validFrom] in *.
  apply andb_true_iff in H as [Hx Ha]. apply andb_true_iff.
  split; [exact Hx | now apply IH].
Qed.

Lemma IsValidMetricName_prefix (a b : string) :
  a <> "" -> IsValidMetricName (a +:+ b) = true -> IsValidMetricName a = true.
Proof.
  unfold IsValidMetricName. destruct a as [|x a]; [congruence|].
  intros _ H. apply andb_true_iff in H as [_ H].
  apply validFrom_app_l in H. now rewrite H.
Qed.

Lemma err_NewDesc_invalid (Quote : string -> string) (fq h : string) :
  IsValidMetricName fq = false -> err (NewDesc Quote fq h) <> None.
Proof. unfold NewDesc. now intros ->. Qed.

Lemma invalid_fqName (namespace name : string) :
  ~ validNamespace namespace ->
  IsValidMetricName (fqPrefix namespace +:+ name) = false.
Proof.
  intros Hns. unfold validNamespace in Hns.
  assert (Hne : namespace <> "") by tauto.
  unfold fqPrefix. destruct (String.eqb namespace "") eqn:E.
  - apply String.eqb_eq in E. contradiction.
  - rewrite string_app_assoc.
    destruct (IsValidMetricName (namespace +:+ "_zfs_" +:+ name)) eqn:Hv;
      [|reflexivity].
    apply IsValidMetricName_prefix in Hv; [tauto | exact Hne].
Qed.

Lemma NewZfsCollector_errs_invalid (namespace : string) (Quote : string -> string) (logger0 : Logger) :
  ~ validNamespace namespace ->
  Forall (fun d => err d <> None)
         (descriptors (NewZfsCollector namespace Quote logger0).1).
Proof.
  intros Hns. unfold descriptors, NewZfsCollector. collector_fields.
  repeat (apply List.Forall_cons;
    [ apply err_NewDesc_invalid; rewrite BuildFQName_zfs by discriminate;
      now apply invalid_fqName | ]).
  apply List.Forall_nil.
Qed.

Lemma validNamespace_dec (namespace : string) :
  validNamespace namespace \/ ~ validNamespace namespace.
Proof.
  unfold validNamespace.
  destruct (String.eqb namespace "") eqn:E.
  - apply String.eqb_eq in E. auto.
  - apply String.eqb_neq in E.
    destruct (IsValidMetricName namespace); [auto|].
    right. intros [?|?]; congruence.
Qed.

(** The descriptors of a collector are free of construction errors
    exactly when the namespace is empty or a valid metric name; under any
    other namespace every one of the fifteen carries an error. *)
Theorem descriptors_valid_iff_namespace (namespace : string) (Quote : string -> string)
    (logger0 : Logger) :
  (validNamespace namespace <->
   Forall (fun d => err d = None)
          (descriptors (NewZfsCollector namespace Quote logger0).1)) /\
  (~ validNamespace namespace <->
   Forall (fun d => err d <> None)
          (descriptors (NewZfsCollector namespace Quote logger0).1)).
Proof.
  split; split.
  - apply NewZfsCollector_errs.
  - intros Hall. destruct (validNamespace_dec namespace) as [H|H]; [exact H|].
    pose proof (NewZfsCollector_errs_invalid namespace Quote logger0 H) as Hbad.
    apply List.Forall_inv in Hall. apply List.Forall_inv in Hbad. contradiction.
  - apply NewZfsCollector_errs_invalid.
  - intros Hbad Hns.
    pose proof (NewZfsCollector_errs namespace Quote logger0 Hns) as Hall.
    apply List.Forall_inv in Hall. apply List.Forall_inv in Hbad. contradiction.
Qed.

(** ** Outcomes of a cycle *)

Lemma rangeOrder_entry (c : zfsCollector) (order pre post : list (string * Desc))
    (k : string) (v : Desc) :
  rangeOrder c order -> order = pre ++ (k, v) :: post ->
  k ∈ fieldNames /\ v ∈ descriptors c.
Proof.
  intros Hord Heq. split.
  - rewrite <- (rangeOrder_keys c order Hord), Heq, fmap_app, fmap_cons.
    apply elem_of_app. right. apply elem_of_cons. now left.
  - rewrite <- (rangeOrder_descs c order Hord), Heq, fmap_app, fmap_cons.
    apply elem_of_app. right. apply elem_of_cons. now left.
Qed.

(** The order in which the literal is written is one order of the range. *)
Lemma arcstatsEntries_rangeOrder (c : zfsCollector) :
  rangeOrder c (arcstatsEntries c).
Proof.
  unfold rangeOrder, arcstatsMap. symmetry. apply map_to_list_to_map.
  exact fieldNames_NoDup.
Qed.

Lemma rangeOrder_nonempty (c : zfsCollector) (order : list (string * Desc)) :
  rangeOrder c order -> order <> [].
Proof. intros H ->. apply rangeOrder_length in H. discriminate. Qed.

Lemma Forall2_fieldSample_fetch (ks : KStat) (order : list (string * Desc))
    (ms : list Metric) (kv : string * Desc) :
  Forall2 (fun kv m => fieldSample ks kv = Some m) order ms ->
  kv ∈ order -> exists n, GetNamed ks kv.1 = Ok n /\ err kv.2 = None.
Proof.
  induction 1 as [|kv' m order ms Hkv _ IH]; intros Hin.
  - now apply elem_of_nil in Hin.
  - apply elem_of_cons in Hin as [->|Hin]; [|now apply IH].
    destruct (fieldSample_inv _ _ _ Hkv) as (n & Hn & Hv & _). eauto.
Qed.

(** Under a valid namespace a cycle returns nil exactly when the facility
    opens, the group [zfs:0:arcstats] resolves and every one of the
    fifteen fields can be fetched, whatever the order of the range. *)
Theorem updateZfsArcStats_nil_iff (namespace : string) (Quote : string -> string) (logger0 : Logger)
    (order : list (string * Desc)) (K : Facility) (w : World) :
  validNamespace namespace ->
  rangeOrder (NewZfsCollector namespace Quote logger0).1 order ->
  ((updateZfsArcStats (NewZfsCollector namespace Quote logger0).1 order K w).2
     = Return None <->
   exists tok ks,
     Open K = Ok tok /\ Lookup tok "zfs" 0 "arcstats" = Ok ks /\
     forall k, k ∈ fieldNames -> exists n, GetNamed ks k = Ok n).
Proof.
  intros Hns Hord. set (c := (NewZfsCollector namespace Quote logger0).1) in *.
  split.
  - intros Hout. destruct (Open K) as [tok|e] eqn:Ho.
    + destruct (Lookup tok "zfs" 0 "arcstats") as [ks|e] eqn:Hl.
      * exists tok, ks. split; [reflexivity|]. split; [exact Hl|].
        destruct (updateZfsArcStats_run c order K w tok ks Ho Hl)
          as (pre & post & ms & tail & Heq & Hpre & Hend & _).
        rewrite Hout in Hend. destruct (loopEnd_nil_iff _ _ _ Hend) as [-> _].
        rewrite app_nil_r in Heq. subst pre. intros k Hk.
        rewrite <- (rangeOrder_keys c order Hord) in Hk.
        apply list_elem_of_fmap in Hk as (kv & -> & Hkv).
        destruct (Forall2_fieldSample_fetch _ _ _ _ Hpre Hkv) as (n & Hn & _).
        eauto.
      * rewrite (updateZfsArcStats_lookup_fails _ _ _ _ _ _ Ho Hl) in Hout.
        discriminate.
    + rewrite (updateZfsArcStats_open_fails _ _ _ _ _ Ho) in Hout.
      discriminate.
  - intros (tok & ks & Ho & Hl & Hall).
    exact (updateZfsArcStats_returns_nil namespace Quote logger0 order K w tok ks
             Hns Hord Ho Hl Hall).
Qed.

Lemma updateZfsArcStats_nil_iff_witness :
  (updateZfsArcStats nodeCollector (map_to_list (arcstatsMap nodeCollector))
     (mockFacility mockFieldsNoP) []).2 <> Return None.
Proof.
  intros Hout.
  apply (updateZfsArcStats_nil_iff "node" plainQuote nopLogger
           (map_to_list (arcstatsMap nodeCollector))
           (mockFacility mockFieldsNoP) []) in Hout.
  - destruct Hout as (tok & ks & Ho & Hl & Hall).
    injection Ho as <-. injection Hl as <-.
    destruct (Hall "p") as [n Hn]; [compute_done|].
    vm_compute in Hn. discriminate.
  - right. reflexivity.
  - unfold rangeOrder. reflexivity.
Defined.

(** Under a valid namespace no cycle panics: it returns nil or an error. *)
Theorem updateZfsArcStats_never_panics (namespace : string) (Quote : string -> string)
    (logger0 : Logger) (order : list (string * Desc)) (K : Facility)
    (w : World) :
  validNamespace namespace ->
  rangeOrder (NewZfsCollector namespace Quote logger0).1 order ->
  exists r,
    (updateZfsArcStats (NewZfsCollector namespace Quote logger0).1 order K w).2
      = Return r /\
    (Update (NewZfsCollector namespace Quote logger0).1 order K w).2
      = Return (match r with
                | Some e =>
                    Some (errors_New ("updateZfsArcStats: " +:+ Error e))
                | None => None
                end).
Proof.
  intros Hns Hord. set (c := (NewZfsCollector namespace Quote logger0).1) in *.
  rewrite Update_unfold. cbn [snd].
  assert (Hret : exists r, (updateZfsArcStats c order K w).2 = Return r).
  { destruct (Open K) as [tok|e] eqn:Ho.
    - destruct (Lookup tok "zfs" 0 "arcstats") as [ks|e] eqn:Hl.
      + destruct (updateZfsArcStats_run c order K w tok ks Ho Hl)
          as (pre & post & ms & tail & Heq & _ & Hend & _).
        destruct Hend as [ | k v post' e Hk | k v post' n e Hk Hv ]; eauto.
        destruct (rangeOrder_entry c order pre post' k v Hord Heq) as [_ Hin].
        pose proof (proj1 (Forall_forall _ _)
                      (NewZfsCollector_errs namespace Quote logger0 Hns) v Hin)
          as Hnone.
        simpl in Hnone. congruence.
      + rewrite (updateZfsArcStats_lookup_fails _ _ _ _ _ _ Ho Hl). eauto.
    - rewrite (updateZfsArcStats_open_fails _ _ _ _ _ Ho). eauto. }
  destruct Hret as [r Hr]. exists r. split; [exact Hr|].
  rewrite Hr. destruct r; reflexivity.
Qed.

Lemma updateZfsArcStats_never_panics_witness :
  exists r,
    (updateZfsArcStats nodeCollector (arcstatsEntries nodeCollector)
       (mockFacility mockFieldsNoP) []).2 = Return r /\
    (Update nodeCollector (arcstatsEntries nodeCollector)
       (mockFacility mockFieldsNoP) []).2
      = Return (match r with
                | Some e =>
                    Some (errors_New ("updateZfsArcStats: " +:+ Error e))
                | None => None
                end).
Proof.
  apply (updateZfsArcStats_never_panics "node" plainQuote nopLogger
           (arcstatsEntries nodeCollector) (mockFacility mockFieldsNoP) []).
  - right. reflexivity.
  - apply arcstatsEntries_rangeOrder.
Defined.

(** Under a namespace that is neither empty nor a valid metric name no
    cycle sends a sample or returns nil; a cycle that can fetch every field
    panics on the first entry of the range, after fetching it, and the
    handle is closed all the same. *)
Theorem invalid_namespace_cycle_panics (namespace : string) (Quote : string -> string)
    (logger0 : Logger) (order : list (string * Desc)) (K : Facility)
    (w : World) :
  ~ validNamespace namespace ->
  rangeOrder (NewZfsCollector namespace Quote logger0).1 order ->
  sent (updateZfsArcStats (NewZfsCollector namespace Quote logger0).1 order K w).1
    = sent w /\
  (updateZfsArcStats (NewZfsCollector namespace Quote logger0).1 order K w).2
    <> Return None /\
  (forall tok ks,
     Open K = Ok tok -> Lookup tok "zfs" 0 "arcstats" = Ok ks ->
     (forall k, k ∈ fieldNames -> exists n, GetNamed ks k = Ok n) ->
     exists k v rest e,
       order = (k, v) :: rest /\ err v = Some e /\
       updateZfsArcStats (NewZfsCollector namespace Quote logger0).1 order K w =
         (w ++ [EvOpen; EvLookup "zfs" 0 "arcstats"; EvGetNamed k; EvClose],
          Panic e)).
Proof.
  intros Hns Hord. set (c := (NewZfsCollector namespace Quote logger0).1) in *.
  pose proof (NewZfsCollector_errs_invalid namespace Quote logger0 Hns) as Hbad.
  fold c in Hbad.
  assert (Hpre : forall ks pre post ms,
            order = pre ++ post ->
            Forall2 (fun kv m => fieldSample ks kv = Some m) pre ms ->
            pre = [] /\ ms = []).
  { intros ks pre post ms Heq HF. destruct HF as [|[k v] m pre ms Hkv _].
    - auto.
    - exfalso. destruct (fieldSample_inv _ _ _ Hkv) as (_ & _ & Hv & _).
      destruct (rangeOrder_entry c order [] (pre ++ post) k v Hord Heq)
        as [_ Hin].
      exact (proj1 (Forall_forall _ _) Hbad v Hin Hv). }
  destruct (Open K) as [tok|e] eqn:Ho.
  - destruct (Lookup tok "zfs" 0 "arcstats") as [ks|e] eqn:Hl.
    + destruct (updateZfsArcStats_run c order K w tok ks Ho Hl)
        as (pre & post & ms & tail & Heq & HF & Hend & Hw).
      destruct (Hpre ks pre post ms Heq HF) as [-> ->]. simpl in Heq.
      subst post.
      split; [|split].
      * destruct (loopEnd_tail _ _ _ _ Hend) as (Htail & _).
        rewrite Hw, !sent_app, Htail. simpl. now rewrite app_nil_r.
      * intros Hout. rewrite Hout in Hend.
        destruct (loopEnd_nil_iff _ _ _ Hend) as [Hnil _].
        exact (rangeOrder_nonempty c order Hord Hnil).
      * intros tok' ks' Ho' Hl' Hall. injection Ho' as <-.
        rewrite Hl in Hl'. injection Hl' as <-.
        destruct (updateZfsArcStats c order K w) as [w' out] eqn:Hrun.
        cbn [fst snd] in *.
        destruct Hend as [ | k v post' e Hk | k v post' n e Hk Hv ].
        -- exfalso. now apply (rangeOrder_nonempty c [] Hord).
        -- exfalso.
           destruct (rangeOrder_entry c _ [] post' k v Hord eq_refl) as [Hin _].
           destruct (Hall k Hin) as [n Hn]. congruence.
        -- exists k, v, post', e. split; [reflexivity|]. split; [exact Hv|].
           rewrite Hw. reflexivity.
    + rewrite (updateZfsArcStats_lookup_fails _ _ _ _ _ _ Ho Hl). cbn [fst snd].
      split; [now rewrite sent_app, app_nil_r|]. split; [discriminate|].
      intros tok' ks' Ho' Hl'. injection Ho' as <-. congruence.
  - rewrite (updateZfsArcStats_open_fails _ _ _ _ _ Ho). cbn [fst snd].
    split; [reflexivity|]. split; [discriminate|]. intros tok' ks' Ho'.
    discriminate.
Qed.

Lemma invalid_namespace_cycle_panics_witness :
  sent (updateZfsArcStats dashCollector (arcstatsEntries dashCollector)
          (mockFacility mockFields) []).1 = [] /\
  (updateZfsArcStats dashCollector (arcstatsEntries dashCollector)
     (mockFacility mockFields) []).2 <> Return None.
Proof.
  destruct (invalid_namespace_cycle_panics "node-exporter" plainQuote nopLogger
              (arcstatsEntries dashCollector) (mockFacility mockFields) [])
    as (Hs & Hn & _).
  - intros [H|H]; discriminate.
  - apply arcstatsEntries_rangeOrder.
  - split; [exact Hs | exact Hn].
Defined.

(** ** Failure to resolve the group *)

(** When the facility opens but the lookup of [zfs:0:arcstats] fails, the
    cycle fetches no field and sends no sample, closes the handle, and
    [updateZfsArcStats] returns the error of [Lookup] unchanged, which
    [Update] prefixes with "updateZfsArcStats: ". *)
Theorem lookup_failure_reported (c : zfsCollector)
    (order : list (string * Desc)) (K : Facility) (w : World)
    (tok : Token) (e : error) :
  Open K = Ok tok ->
  Lookup tok "zfs" 0 "arcstats" = Err e ->
  updateZfsArcStats c order K w =
    (w ++ [EvOpen; EvLookup "zfs" 0 "arcstats"; EvClose], Return (Some e)) /\
  sent (updateZfsArcStats c order K w).1 = sent w /\
  fetched (updateZfsArcStats c order K w).1 = fetched w /\
  open_handles (updateZfsArcStats c order K w).1 = open_handles w /\
  Update c order K w =
    (w ++ [EvOpen; EvLookup "zfs" 0 "arcstats"; EvClose],
     Return (Some (errors_New ("updateZfsArcStats: " +:+ Error e)))).
Proof.
  intros Ho Hl.
  pose proof (updateZfsArcStats_lookup_fails c order K w tok e Ho Hl) as Hrun.
  rewrite Update_unfold, Hrun. cbn [fst snd].
  rewrite sent_app, fetched_app, open_handles_app. simpl.
  rewrite !app_nil_r. repeat split; auto. lia.
Qed.

Lemma lookup_failure_reported_witness :
  Update nodeCollector (arcstatsEntries nodeCollector) emptyFacility [] =
  ([EvOpen; EvLookup "zfs" 0 "arcstats"; EvClose],
   Return (Some (errors_New "updateZfsArcStats: no such kstat"))).
Proof.
  exact (proj2 (proj2 (proj2 (proj2
    (lookup_failure_reported nodeCollector (arcstatsEntries nodeCollector)
       emptyFacility []
       (mkToken (fun _ _ _ => Err (errors_New "no such kstat")))
       (errors_New "no such kstat") eq_refl eq_refl))))).
Defined.

(** ** The loop in any world *)

Lemma rangeArcstats_frame (ks : KStat) (order : list (string * Desc))
    (w : World) :
  rangeArcstats ks order w =
  (w ++ (rangeArcstats ks order []).1, (rangeArcstats ks order []).2).
Proof.
  revert w. induction order as [|[k v] order IH]; intros w.
  - simpl. now rewrite app_nil_r.
  - cbn [rangeArcstats]. destruct (GetNamed ks k) as [n|e]; [|reflexivity].
    destruct (NewConstMetric v (metricTypeOf k) (float64 (UintVal n)))
      as [m|e]; [|reflexivity].
    rewrite (IH (w ++ _)), (IH ([] ++ _)). cbn [fst snd].
    now rewrite <- !app_assoc.
Qed.

(** ** How many samples, and of which descriptors *)

Lemma loopEnd_post (ks : KStat) (post : list (string * Desc)) (tail : World)
    (out : outcome) :
  loopEnd ks post tail out ->
  (out = Return None /\ post = [] /\ tail = []) \/
  (out <> Return None /\
   exists k v post', post = (k, v) :: post' /\ tail = [EvGetNamed k]).
Proof.
  intros [ | k v post' e Hk | k v post' n e Hk Hv ];
    [left; auto | right | right]; (split; [discriminate|]); eauto.
Qed.

(** A cycle sends all fifteen samples exactly when it returns nil; every
    other cycle sends strictly fewer. *)
Theorem all_samples_iff_nil (c : zfsCollector)
    (order : list (string * Desc)) (K : Facility) (w : World) :
  rangeOrder c order ->
  exists ms,
    sent (updateZfsArcStats c order K w).1 = sent w ++ ms /\
    (length ms <= 15)%nat /\
    (length ms = 15%nat <-> (updateZfsArcStats c order K w).2 = Return None).
Proof.
  intros Hord. pose proof (rangeOrder_length c order Hord) as Hlen.
  destruct (Open K) as [tok|e] eqn:Ho.
  - destruct (Lookup tok "zfs" 0 "arcstats") as [ks|e] eqn:Hl.
    + destruct (updateZfsArcStats_run c order K w tok ks Ho Hl)
        as (pre & post & ms & tail & Heq & Hpre & Hend & Hw).
      exists ms.
      pose proof (Forall2_length _ _ _ Hpre) as Hpm.
      rewrite Heq, length_app in Hlen.
      destruct (loopEnd_tail _ _ _ _ Hend) as (Htail & _).
      split.
      { rewrite Hw, !sent_app, Htail, (sent_loopEvents _ _ Hpm). simpl.
        now rewrite app_nil_r. }
      destruct (loopEnd_post _ _ _ _ Hend)
        as [(Hout & -> & _) | (Hout & k & v & post' & -> & _)];
        simpl in Hlen.
      * split; [lia|]. split; [intros _; exact Hout | intros _; lia].
      * split; [lia|]. split; [intros ?; lia | intros ?; contradiction].
    + exists []. rewrite (updateZfsArcStats_lookup_fails _ _ _ _ _ _ Ho Hl).
      cbn [fst snd]. rewrite sent_app. simpl.
      split; [reflexivity|]. split; [lia|]. split; discriminate.
  - exists []. rewrite (updateZfsArcStats_open_fails _ _ _ _ _ Ho).
    cbn [fst snd]. split; [now rewrite app_nil_r|]. simpl.
    split; [lia|]. split; discriminate.
Qed.

Lemma all_samples_iff_nil_witness :
  exists ms,
    sent (updateZfsArcStats nodeCollector (arcstatsEntries nodeCollector)
            (mockFacility mockFieldsNoP) []).1 = sent [] ++ ms /\
    (length ms <= 15)%nat /\
    (length ms = 15%nat <->
     (updateZfsArcStats nodeCollector (arcstatsEntries nodeCollector)
        (mockFacility mockFieldsNoP) []).2 = Return None).
Proof.
  apply (all_samples_iff_nil nodeCollector (arcstatsEntries nodeCollector)
           (mockFacility mockFieldsNoP) []).
  apply arcstatsEntries_rangeOrder.
Defined.

(** Whatever its outcome, a cycle of a collector built by
    [NewZfsCollector] never sends two samples of the same descriptor or of
    the same name, and every sample is of a descriptor of the table. *)
Theorem samples_never_repeat (namespace : string) (Quote : string -> string) (logger0 : Logger)
    (order : list (string * Desc)) (K : Facility) (w : World) :
  rangeOrder (NewZfsCollector namespace Quote logger0).1 order ->
  exists ms,
    sent (updateZfsArcStats (NewZfsCollector namespace Quote logger0).1 order K w).1
      = sent w ++ ms /\
    NoDup (desc <$> ms) /\
    NoDup (fqName <$> (desc <$> ms)) /\
    (forall m, m ∈ ms ->
       desc m ∈ descriptors (NewZfsCollector namespace Quote logger0).1).
Proof.
  intros Hord. set (c := (NewZfsCollector namespace Quote logger0).1) in *.
  destruct (updateZfsArcStats_emitted c order K w)
    as (pre & post & ms & Heq & Hpre & Hsent & _).
  exists ms. split; [exact Hsent|].
  pose proof (Forall2_cycleSample_desc _ _ _ Hpre) as Hdesc.
  assert (Hnd : NoDup (fqName <$> order.*2)).
  { rewrite (rangeOrder_descs c order Hord).
    apply NewZfsCollector_fqNames_NoDup. }
  rewrite Heq, !fmap_app in Hnd. apply NoDup_app in Hnd as (Hnd & _ & _).
  rewrite Hdesc. split; [exact (NoDup_fmap_1 _ _ Hnd)|].
  split; [exact Hnd|].
  intros m Hm. rewrite <- (rangeOrder_descs c order Hord), Heq, fmap_app.
  apply elem_of_app. left. rewrite <- Hdesc. now apply list_elem_of_fmap_2.
Qed.

Lemma samples_never_repeat_witness :
  exists ms,
    sent (updateZfsArcStats nodeCollector (arcstatsEntries nodeCollector)
            (mockFacility mockFieldsNoP) []).1 = sent [] ++ ms /\
    NoDup (desc <$> ms) /\
    NoDup (fqName <$> (desc <$> ms)) /\
    (forall m, m ∈ ms -> desc m ∈ descriptors nodeCollector).
Proof.
  apply (samples_never_repeat "node" plainQuote nopLogger
           (arcstatsEntries nodeCollector) (mockFacility mockFieldsNoP) []).
  apply arcstatsEntries_rangeOrder.
Defined.


(** ** Fetches *)

(** The fields a cycle fetches are an initial segment of the order of the
    range: each of the fifteen field names is fetched at most once, no
    other name is fetched, and the fetches outnumber the samples by at most
    one, the fetch at which the loop stopped. *)
Theorem fields_fetched_once_in_order (c : zfsCollector)
    (order : list (string * Desc)) (K : Facility) (w : World) :
  rangeOrder c order ->
  exists fs ms,
    fetched (updateZfsArcStats c order K w).1 = fetched w ++ fs /\
    sent (updateZfsArcStats c order K w).1 = sent w ++ ms /\
    fs `prefix_of` order.*1 /\
    NoDup fs /\
    (forall k, k ∈ fs -> k ∈ fieldNames) /\
    (length ms <= length fs <= length ms + 1)%nat /\
    ((updateZfsArcStats c order K w).2 = Return None ->
     fs = order.*1 /\ length ms = length fs).
Proof.
  intros Hord.
  assert (Hgoal : exists fs ms,
    fetched (updateZfsArcStats c order K w).1 = fetched w ++ fs /\
    sent (updateZfsArcStats c order K w).1 = sent w ++ ms /\
    fs `prefix_of` order.*1 /\
    (length ms <= length fs <= length ms + 1)%nat /\
    ((updateZfsArcStats c order K w).2 = Return None ->
     fs = order.*1 /\ length ms = length fs)).
  { destruct (Open K) as [tok|e] eqn:Ho.
    - destruct (Lookup tok "zfs" 0 "arcstats") as [ks|e] eqn:Hl.
      + destruct (updateZfsArcStats_run c order K w tok ks Ho Hl)
          as (pre & post & ms & tail & Heq & Hpre & Hend & Hw).
        pose proof (Forall2_length _ _ _ Hpre) as Hpm.
        destruct (loopEnd_tail _ _ _ _ Hend) as (Htail & _).
        exists (pre.*1 ++ fetched tail), ms.
        split.
        { rewrite Hw, !fetched_app, (fetched_loopEvents _ _ Hpm). simpl.
          now rewrite app_nil_r. }
        split.
        { rewrite Hw, !sent_app, Htail, (sent_loopEvents _ _ Hpm). simpl.
          now rewrite app_nil_r. }
        rewrite length_app, length_fmap, Hpm.
        destruct (loopEnd_post _ _ _ _ Hend)
          as [(Hout & -> & ->) | (Hout & k & v & post' & -> & ->)].
        * rewrite app_nil_r in Heq. subst pre. simpl. rewrite app_nil_r.
          split; [reflexivity|]. split; [lia|]. intros _. split; [auto|lia].
        * split.
          { exists (post'.*1). rewrite Heq, fmap_app, fmap_cons. simpl.
            now rewrite <- app_assoc. }
          simpl. split; [lia|]. intros ?. contradiction.
      + exists [], []. rewrite (updateZfsArcStats_lookup_fails _ _ _ _ _ _ Ho Hl).
        cbn [fst snd]. rewrite fetched_app, sent_app. simpl.
        split; [reflexivity|]. split; [reflexivity|].
        split; [apply prefix_nil|]. split; [lia|]. discriminate.
    - exists [], []. rewrite (updateZfsArcStats_open_fails _ _ _ _ _ Ho).
      cbn [fst snd]. rewrite !app_nil_r.
      split; [reflexivity|]. split; [reflexivity|].
      split; [apply prefix_nil|]. simpl. split; [lia|]. discriminate. }
  destruct Hgoal as (fs & ms & Hf & Hs & Hp & Hl & Hn).
  exists fs, ms. split; [exact Hf|]. split; [exact Hs|]. split; [exact Hp|].
  destruct Hp as [rest Hrest].
  pose proof (rangeOrder_keys c order Hord) as Hkeys.
  split; [|split; [|split; [exact Hl | exact Hn]]].
  - assert (Hnd : NoDup (order.*1)) by (rewrite Hkeys; exact fieldNames_NoDup).
    rewrite Hrest in Hnd. now apply NoDup_app in Hnd as (? & _ & _).
  - intros k Hk. rewrite <- Hkeys, Hrest. apply elem_of_app. now left.
Qed.

Lemma fields_fetched_once_in_order_witness :
  exists fs ms,
    fetched (updateZfsArcStats nodeCollector (arcstatsEntries nodeCollector)
               (mockFacility mockFieldsNoP) []).1 = fetched [] ++ fs /\
    sent (updateZfsArcStats nodeCollector (arcstatsEntries nodeCollector)
            (mockFacility mockFieldsNoP) []).1 = sent [] ++ ms /\
    fs `prefix_of` (arcstatsEntries nodeCollector).*1 /\
    NoDup fs /\
    (forall k, k ∈ fs -> k ∈ fieldNames) /\
    (length ms <= length fs <= length ms + 1)%nat /\
    ((updateZfsArcStats nodeCollector (arcstatsEntries nodeCollector)
        (mockFacility mockFieldsNoP) []).2 = Return None ->
     fs = (arcstatsEntries nodeCollector).*1 /\ length ms = length fs).
Proof.
  apply (fields_fetched_once_in_order nodeCollector
           (arcstatsEntries nodeCollector) (mockFacility mockFieldsNoP) []).
  apply arcstatsEntries_rangeOrder.
Defined.

(** ** The error of a failed fetch names its field *)

Lemma paren_delimits (k1 k2 r1 r2 : string) :
  mentions ")" k1 = false -> mentions ")" k2 = false ->
  k1 +:+ String ")" r1 = k2 +:+ String ")" r2 -> k1 = k2 /\ r1 = r2.
Proof.
  revert k2. induction k1 as [|x k1 IH]; intros [|y k2] H1 H2 Heq;
    rewrite ?append_cons, ?append_nil_l in Heq; cbn [mentions] in H1, H2.
  - injection Heq as ->. auto.
  - injection Heq as <- _. rewrite Ascii.eqb_refl in H2. discriminate.
  - injection Heq as -> _. rewrite Ascii.eqb_refl in H1. discriminate.
  - injection Heq as -> Heq.
    apply orb_false_iff in H1 as [_ H1], H2 as [_ H2].
    destruct (IH k2 H1 H2 Heq) as [-> ->]. auto.
Qed.

Lemma fieldNames_no_paren (k : string) :
  k ∈ fieldNames -> mentions ")" k = false.
Proof.
  revert k. apply Forall_forall. repeat constructor.
Qed.

(** The message built at line 155 tells the field and the cause apart:
    two loops that stop at a failed fetch return the same error only if
    they stopped at the same field with the same fetch error. *)
Theorem fetch_error_identifies_field (ks1 ks2 : KStat) (k1 k2 : string)
    (v1 v2 : Desc) (post1 post2 : list (string * Desc)) (w1 w2 : World)
    (e1 e2 : error) :
  k1 ∈ fieldNames -> k2 ∈ fieldNames ->
  GetNamed ks1 k1 = Err e1 -> GetNamed ks2 k2 = Err e2 ->
  (rangeArcstats ks1 ((k1, v1) :: post1) w1).2 =
  (rangeArcstats ks2 ((k2, v2) :: post2) w2).2 ->
  k1 = k2 /\ e1 = e2.
Proof.
  intros Hin1 Hin2 Hk1 Hk2. cbn [rangeArcstats]. rewrite Hk1, Hk2.
  cbn [snd]. intros Heq. injection Heq as Heq.
  apply String.app_inj in Heq.
  change ("): " +:+ Error e1) with (String ")" (": " +:+ Error e1)) in Heq.
  change ("): " +:+ Error e2) with (String ")" (": " +:+ Error e2)) in Heq.
  apply paren_delimits in Heq as [-> Heq];
    try (now apply fieldNames_no_paren).
  split; [reflexivity|]. apply String.app_inj in Heq.
  destruct e1, e2. cbn [Error] in Heq. now subst.
Qed.

Lemma fetch_error_identifies_field_witness :
  "p" = "p" /\ errors_New "invalid argument" = errors_New "invalid argument".
Proof.
  apply (fetch_error_identifies_field
           (mockGroup mockFieldsNoP) (mockGroup mockFieldsNoP) "p" "p"
           (arcstatsP nodeCollector) (arcstatsP nodeCollector) [] [] [] []).
  - compute_done.
  - compute_done.
  - vm_compute. reflexivity.
  - vm_compute. reflexivity.
  - reflexivity.
Defined.

(** ** The conversion never leaves the finite numbers *)

Lemma shr_m_shr_1 (mrs : shr_record) :
  0 <= shr_m mrs -> shr_m (shr_1 mrs) = shr_m mrs / 2.
Proof.
  destruct mrs as [m r s]. cbn [shr_m]. intros Hm.
  destruct m as [|[p|p|]|p]; cbn [shr_1 shr_m]; try reflexivity; try lia.
  - apply Z.div_unique with (r := 1); lia.
  - apply Z.div_unique with (r := 0); lia.
Qed.

Lemma shr_m_iter (k : positive) (mrs : shr_record) :
  0 <= shr_m mrs ->
  shr_m (SpecFloat.iter_pos shr_1 k mrs) = shr_m mrs / 2 ^ Z.pos k.
Proof.
  revert mrs. induction k as [k IH|k IH|]; intros mrs Hm;
    cbn [SpecFloat.iter_pos].
  - assert (H2 : 0 < 2 ^ Z.pos k) by (apply Z.pow_pos_nonneg; lia).
    assert (H1 : 0 <= shr_m (shr_1 mrs)).
    { rewrite shr_m_shr_1 by exact Hm. apply Z.div_pos; lia. }
    assert (H3 : 0 <= shr_m (SpecFloat.iter_pos shr_1 k (shr_1 mrs))).
    { rewrite IH by exact H1. apply Z.div_pos; lia. }
    rewrite IH by exact H3. rewrite IH by exact H1.
    rewrite shr_m_shr_1 by exact Hm.
    rewrite pow2_xI, !Z.div_div by lia. f_equal. lia.
  - assert (H2 : 0 < 2 ^ Z.pos k) by (apply Z.pow_pos_nonneg; lia).
    assert (H3 : 0 <= shr_m (SpecFloat.iter_pos shr_1 k mrs)).
    { rewrite IH by exact Hm. apply Z.div_pos; lia. }
    rewrite IH by exact H3. rewrite IH by exact Hm.
    rewrite pow2_xO, !Z.div_div by lia. reflexivity.
  - change (2 ^ 1) with 2. now apply shr_m_shr_1.
Qed.

Lemma round_nearest_even_cases (q : Z) (l : location) :
  round_nearest_even q l = q \/ round_nearest_even q l = q + 1.
Proof.
  destruct l as [|[]]; cbn [round_nearest_even]; auto.
  destruct (Z.even q); auto.
Qed.

Lemma shr_fexp_pow53 (k : positive) :
  shr_fexp 53 1024 (2 ^ 53) (Z.pos k) loc_Exact
  = (Build_shr_record (2 ^ 52) false false, Z.pos k + 1).
Proof.
  change (2 ^ 53) with 9007199254740992.
  change (2 ^ 52) with 4503599627370496.
  unfold shr_fexp, fexp, emin.
  change (Zdigits2 9007199254740992) with 54.
  replace (Z.max (54 + Z.pos k - 53) (3 - 1024 - 53) - Z.pos k) with 1 by lia.
  reflexivity.
Qed.

(** Beyond 53 bits the conversion gives one of the two multiples of
    [2 ^ k] around the argument, [k] being the number of bits dropped. *)
Lemma float64_rounds (p : positive) (k : positive) :
  Z.pos (digits2_pos p) = 53 + Z.pos k -> Z.pos k <= 11 ->
  exists q', (q' = Z.pos p / 2 ^ Z.pos k \/ q' = Z.pos p / 2 ^ Z.pos k + 1) /\
             SF2Z (float64 (Z.pos p)) = Some (q' * 2 ^ Z.pos k).
Proof.
  intros Hd Hk. pose proof (digits2_pos_bounds p) as Hb. rewrite Hd in Hb.
  assert (H2 : 0 < 2 ^ Z.pos k) by (apply Z.pow_pos_nonneg; lia).
  assert (E : 2 ^ (53 + Z.pos k - 1) = 2 ^ 52 * 2 ^ Z.pos k /\
              2 ^ (53 + Z.pos k) = 2 ^ 53 * 2 ^ Z.pos k).
  { rewrite <- !Z.pow_add_r by lia. split; f_equal; lia. }
  destruct E as [E1 E2]. rewrite E1, E2 in Hb.
  set (q := Z.pos p / 2 ^ Z.pos k).
  assert (Hq : 2 ^ 52 <= q < 2 ^ 53).
  { unfold q. split.
    - apply Z.div_le_lower_bound; lia.
    - apply Z.div_lt_upper_bound; lia. }
  unfold float64, binary_normalize, binary_round, shl_align.
  assert (Hf : fexp 53 1024 (Z.pos (digits2_pos p) + 0) = Z.pos k)
    by (unfold fexp, emin; lia).
  rewrite Hf, Z.sub_0_r. cbv beta iota. unfold binary_round_aux.
  unfold shr_fexp at 1. cbn [Zdigits2 shr_record_of_loc]. rewrite Hf, Z.sub_0_r.
  cbn [shr]. rewrite Z.add_0_l.
  set (mrs := SpecFloat.iter_pos shr_1 k (Build_shr_record (Z.pos p) false false)).
  assert (Hm : shr_m mrs = q).
  { unfold mrs, q. rewrite shr_m_iter; [reflexivity | cbn [shr_m]; lia]. }
  rewrite Hm.
  destruct (round_nearest_even_cases q (loc_of_shr_record mrs)) as [Hr|Hr];
    rewrite Hr.
  - exists q. split; [now left|].
    destruct q as [|q0|q0]; try lia.
    assert (Hdq : Z.pos (digits2_pos q0) = 53)
      by (apply digits2_pos_unique; change (53 - 1) with 52; lia).
    rewrite (shr_fexp_53 q0 (Z.pos k) Hdq) by lia. cbn [shr_m].
    replace (Z.pos k <=? 1024 - 53) with true
      by (symmetry; apply Z.leb_le; lia).
    cbn [SF2Z]. replace (0 <=? Z.pos k) with true by reflexivity.
    reflexivity.
  - exists (q + 1). split; [now right|].
    destruct (Z.eq_dec (q + 1) (2 ^ 53)) as [Htop|Htop].
    + rewrite Htop, shr_fexp_pow53. cbn [shr_m].
      change (2 ^ 52) with 4503599627370496.
      replace (Z.pos k + 1 <=? 1024 - 53) with true
        by (symmetry; apply Z.leb_le; lia).
      cbn [SF2Z].
      replace (0 <=? Z.pos k + 1) with true by (symmetry; apply Z.leb_le; lia).
      cbn [cond_Zopp]. f_equal. rewrite Z.pow_add_r by lia.
      change (2 ^ 53) with 9007199254740992. lia.
    + destruct (q + 1) as [|q0|q0] eqn:Hq1; try lia.
      assert (Hdq : Z.pos (digits2_pos q0) = 53)
        by (apply digits2_pos_unique; change (53 - 1) with 52; lia).
      rewrite (shr_fexp_53 q0 (Z.pos k) Hdq) by lia. cbn [shr_m].
      replace (Z.pos k <=? 1024 - 53) with true
        by (symmetry; apply Z.leb_le; lia).
      cbn [SF2Z]. replace (0 <=? Z.pos k) with true by reflexivity.
      reflexivity.
Qed.

(** [float64] of a [uint64] is a finite, non-negative integer, at most
    [2 ^ 64], no more than [2 ^ 11] away from the argument and equal to it
    below [2 ^ 53]: never a NaN, an infinity or a negative number. *)
Theorem float64_finite (u : Z) :
  uint64 u ->
  exists z, SF2Z (float64 u) = Some z /\
            0 <= z <= 2 ^ 64 /\
            Z.abs (z - u) <= 2 ^ 11 /\
            (u < 2 ^ 53 -> z = u).
Proof.
  intros [Hlo Hhi]. destruct u as [|p|p]; [|clear Hlo|lia].
  - exists 0. repeat split; try reflexivity; lia.
  - pose proof (digits2_pos_bounds p) as Hb.
    destruct (Z.le_gt_cases (Z.pos (digits2_pos p)) 53) as [Hle|Hgt].
    + exists (Z.pos p). rewrite float64_small by exact Hle.
      rewrite Z.sub_diag. repeat split; auto; lia.
    + assert (H64 : Z.pos (digits2_pos p) <= 64).
      { destruct (Z.le_gt_cases (Z.pos (digits2_pos p)) 64) as [H|H];
          [exact H|].
        assert (2 ^ 64 <= 2 ^ (Z.pos (digits2_pos p) - 1))
          by (apply Z.pow_le_mono_r; lia).
        lia. }
      destruct (Z.pos (digits2_pos p) - 53) as [|k|k] eqn:Hk; try lia.
      assert (Hd : Z.pos (digits2_pos p) = 53 + Z.pos k) by lia.
      destruct (float64_rounds p k Hd) as (q' & Hq' & Hz); [lia|].
      exists (q' * 2 ^ Z.pos k). split; [exact Hz|].
      rewrite Hd in Hb.
      assert (Hbig : 2 ^ 53 <= Z.pos p).
      { assert (2 ^ 53 <= 2 ^ (53 + Z.pos k - 1))
          by (apply Z.pow_le_mono_r; lia).
        lia. }
      assert (H2 : 0 < 2 ^ Z.pos k) by (apply Z.pow_pos_nonneg; lia).
      assert (Hk11 : 2 ^ Z.pos k <= 2 ^ 11) by (apply Z.pow_le_mono_r; lia).
      assert (E : 2 ^ (53 + Z.pos k) = 2 ^ 53 * 2 ^ Z.pos k)
        by (now rewrite Z.pow_add_r by lia).
      assert (E64 : 2 ^ (53 + Z.pos k) <= 2 ^ 64)
        by (apply Z.pow_le_mono_r; lia).
      pose proof (Z.mul_div_le (Z.pos p) (2 ^ Z.pos k) H2) as Hdn.
      pose proof (Z.mul_succ_div_gt (Z.pos p) (2 ^ Z.pos k) H2) as Hup.
      set (q := Z.pos p / 2 ^ Z.pos k) in *.
      assert (Hq53 : q < 2 ^ 53).
      { unfold q. apply Z.div_lt_upper_bound; lia. }
      assert (Hq0 : 0 <= q) by (unfold q; apply Z.div_pos; lia).
      rewrite Z.mul_succ_r in Hup. rewrite E in E64.
      change (2 ^ 11) with 2048 in *.
      clearbody q. clear Hz Hb E. set (t := 2 ^ Z.pos k) in *. clearbody t.
      split; [|split].
      * destruct Hq' as [-> | ->]; nia.
      * apply Z.abs_le. destruct Hq' as [-> | ->].
        -- rewrite (Z.mul_comm q t). lia.
        -- replace ((q + 1) * t) with (t * q + t) by ring. lia.
      * intros Hsmall. exfalso. lia.
Qed.

(** Against a facility whose fields are [uint64] values, every sample a
    cycle sends, whatever the outcome of the cycle, carries a finite,
    non-negative value at most [2 ^ 64], no more than [2 ^ 11] away from
    the fetched value and equal to it below [2 ^ 53]. *)
Theorem sample_values_finite (c : zfsCollector)
    (order : list (string * Desc)) (K : Facility) (w : World) :
  (forall tok ks k n,
     Open K = Ok tok -> Lookup tok "zfs" 0 "arcstats" = Ok ks ->
     GetNamed ks k = Ok n -> uint64 (UintVal n)) ->
  exists pre post ms,
    order = pre ++ post /\
    sent (updateZfsArcStats c order K w).1 = sent w ++ ms /\
    Forall2 (fun kv m =>
       exists tok ks n z,
         Open K = Ok tok /\ Lookup tok "zfs" 0 "arcstats" = Ok ks /\
         GetNamed ks kv.1 = Ok n /\
         SF2Z (val m) = Some z /\
         0 <= z <= 2 ^ 64 /\
         Z.abs (z - UintVal n) <= 2 ^ 11 /\
         (UintVal n < 2 ^ 53 -> z = UintVal n)) pre ms.
Proof.
  intros Hwf.
  destruct (updateZfsArcStats_emitted c order K w)
    as (pre & post & ms & Heq & Hpre & Hsent & _).
  exists pre, post, ms. split; [exact Heq|]. split; [exact Hsent|].
  eapply Forall2_impl; [exact Hpre|]. intros kv m Hkv.
  destruct (cycleSample_inv _ _ _ Hkv)
    as (tok & ks & n & Ho & Hl & Hn & _ & ->).
  destruct (float64_finite (UintVal n) (Hwf tok ks kv.1 n Ho Hl Hn))
    as (z & Hz & Hrange & Habs & Hsmall).
  exists tok, ks, n, z. cbn [val]. repeat split; auto; lia.
Qed.

Lemma mockFacility_uint64 (tok : Token) (ks : KStat) (k : string) (n : Named) :
  Open (mockFacility mockFields) = Ok tok ->
  Lookup tok "zfs" 0 "arcstats" = Ok ks ->
  GetNamed ks k = Ok n -> uint64 (UintVal n).
Proof.
  intros Ho Hl. injection Ho as <-. injection Hl as <-.
  unfold mockGroup. cbn [GetNamed].
  destruct (list_to_map mockFields !! k) as [u|] eqn:Hu; [|discriminate].
  intros Hn. injection Hn as <-. cbn [UintVal].
  apply elem_of_list_to_map_2 in Hu. unfold uint64.
  unfold mockFields in Hu.
  repeat (apply elem_of_cons in Hu as [Hu|Hu];
          [injection Hu as _ ->; lia|]).
  now apply elem_of_nil in Hu.
Qed.

Lemma sample_values_finite_witness :
  exists pre post ms,
    arcstatsEntries nodeCollector = pre ++ post /\
    sent (updateZfsArcStats nodeCollector (arcstatsEntries nodeCollector)
            (mockFacility mockFields) []).1 = sent [] ++ ms /\
    Forall2 (fun kv m =>
       exists tok ks n z,
         Open (mockFacility mockFields) = Ok tok /\
         Lookup tok "zfs" 0 "arcstats" = Ok ks /\
         GetNamed ks kv.1 = Ok n /\
         SF2Z (val m) = Some z /\
         0 <= z <= 2 ^ 64 /\
         Z.abs (z - UintVal n) <= 2 ^ 11 /\
         (UintVal n < 2 ^ 53 -> z = UintVal n)) pre ms.
Proof.
  apply (sample_values_finite nodeCollector (arcstatsEntries nodeCollector)
           (mockFacility mockFields) []).
  exact mockFacility_uint64.
Defined.

(** ** Kinds and names *)

Lemma ends_in_app (p s suffix : string) :
  ends_in s suffix -> ends_in (p +:+ s) suffix.
Proof.
  intros [q ->]. exists (p +:+ q). now rewrite string_app_assoc.
Qed.

Lemma ends_in_unique (s a b : string) :
  String.length a = String.length b -> ends_in s a -> ends_in s b -> a = b.
Proof.
  intros Hlen Ha Hb. apply HasSuffix_ends_in in Ha, Hb.
  unfold strings.HasSuffix in Ha, Hb.
  apply andb_true_iff in Ha as [_ Ha], Hb as [_ Hb].
  apply String.eqb_eq in Ha, Hb. rewrite Hlen in Ha. congruence.
Qed.

Lemma total_not_bytes (p name : string) :
  ends_in name "_total" -> ends_in (p +:+ name) "_bytes" -> False.
Proof.
  intros Ht Hb. apply (ends_in_app p) in Ht.
  pose proof (ends_in_unique (p +:+ name) "_total" "_bytes" eq_refl Ht Hb).
  discriminate.
Qed.

Lemma entries_kind_name (namespace : string) (Quote : string -> string) (logger0 : Logger) :
  Forall (fun kv =>
            (metricTypeOf kv.1 = CounterValue ->
             ends_in (fqName kv.2) "_total") /\
            (ends_in (fqName kv.2) "_bytes" ->
             metricTypeOf kv.1 = GaugeValue))
         (arcstatsEntries (NewZfsCollector namespace Quote logger0).1).
Proof.
  unfold arcstatsEntries, NewZfsCollector. collector_fields.
  repeat (apply List.Forall_cons;
    [ cbn [fst snd]; rewrite fqName_NewDesc, BuildFQName_zfs by discriminate;
      split;
      [ intros Hc; first
          [ discriminate Hc
          | apply ends_in_app, HasSuffix_ends_in; reflexivity ]
      | intros Hb; first
          [ reflexivity
          | exfalso; eapply total_not_bytes; [|exact Hb];
            apply HasSuffix_ends_in; reflexivity ] ]
    | ]).
  apply List.Forall_nil.
Qed.

(** Whatever the namespace, a sample of kind Counter has a name ending in
    "_total" and a sample whose name ends in "_bytes" is a Gauge; no sample
    is of the untyped kind. *)
Theorem counter_samples_are_totals (namespace : string) (Quote : string -> string) (logger0 : Logger)
    (order : list (string * Desc)) (K : Facility) (w : World) :
  rangeOrder (NewZfsCollector namespace Quote logger0).1 order ->
  exists ms,
    sent (updateZfsArcStats (NewZfsCollector namespace Quote logger0).1 order K w).1
      = sent w ++ ms /\
    Forall (fun m =>
              (valType m = CounterValue ->
               ends_in (fqName (desc m)) "_total") /\
              (ends_in (fqName (desc m)) "_bytes" ->
               valType m = GaugeValue) /\
              valType m <> UntypedValue) ms.
Proof.
  intros Hord. set (c := (NewZfsCollector namespace Quote logger0).1) in *.
  destruct (updateZfsArcStats_emitted c order K w)
    as (pre & post & ms & Heq & Hpre & Hsent & _).
  exists ms. split; [exact Hsent|].
  assert (Hin : forall kv, kv ∈ pre -> kv ∈ arcstatsEntries c).
  { intros kv Hkv. rewrite <- (rangeOrder_entries c order Hord), Heq.
    apply elem_of_app. now left. }
  clear Heq Hsent. induction Hpre as [|kv m pre ms Hkv _ IH]; constructor.
  - destruct (cycleSample_inv _ _ _ Hkv) as (_ & _ & n & _ & _ & _ & _ & ->).
    cbn [desc valType].
    pose proof (proj1 (Forall_forall _ _)
                  (entries_kind_name namespace Quote logger0) kv
                  (Hin kv (list_elem_of_here _ _))) as [Hc Hb].
    split; [exact Hc|]. split; [exact Hb|].
    unfold metricTypeOf. destruct (_ || _); discriminate.
  - apply IH. intros kv' Hkv'. apply Hin. now apply elem_of_cons; right.
Qed.

Lemma counter_samples_are_totals_witness :
  exists ms,
    sent (updateZfsArcStats nodeCollector (arcstatsEntries nodeCollector)
            (mockFacility mockFields) []).1 = sent [] ++ ms /\
    Forall (fun m =>
              (valType m = CounterValue ->
               ends_in (fqName (desc m)) "_total") /\
              (ends_in (fqName (desc m)) "_bytes" ->
               valType m = GaugeValue) /\
              valType m <> UntypedValue) ms.
Proof.
  apply (counter_samples_are_totals "node" plainQuote nopLogger
           (arcstatsEntries nodeCollector) (mockFacility mockFields) []).
  apply arcstatsEntries_rangeOrder.
Defined.
